(** * granola-sync: a shallow embedding of [granola_sync.py] and
      [granola_transcripts.py]

    Modelling conventions.

    - Python [str] values are [string]s; a character is a code point below
      256, and the character classes ([str.isspace], the regex classes
      [\w] and [\s], [str.lower]) are those of CPython on that range.
    - JSON objects the scripts read with [.get] are records whose fields are
      [option]s: [None] is an absent key.  The records follow the shapes the
      scripts expect (a title is a string, [meeting_end_count] an integer,
      a segment's [text] and [source] strings); values of other JSON types,
      on which the scripts raise a [TypeError] or an [AttributeError], are
      outside the model.  The cache reader alone is modelled on decoded JSON
      values, since its outcome depends on their shape.
    - [dict]s keyed by transcript id that the scripts only look up are
      finite maps ([gmap string _]); the [transcripts] mapping, which is
      iterated in insertion order, is an association list.
    - The file system is a flat store from path strings to file contents
      plus the set of directories made by [os.makedirs]; writes and removes
      succeed, and [os.path.exists] asks for a file of the store.
    - [datetime.now()] reads a clock [now : nat -> datetime] at the current
      tick and advances the tick. *)

From Stdlib Require Import Ascii String NArith ZArith DecimalString.
From stdpp Require Import gmap strings list sorting.

Local Open Scope stdpp_scope.

(** ** Python [str] operations *)

Module Str.

Definition code (c : ascii) : N := N_of_ascii c.

Definition between (lo hi n : N) : bool := (lo <=? n)%N && (n <=? hi)%N.

(** [str.isspace] on one character; also the regex class [\s]. *)
Definition isspace (c : ascii) : bool :=
  let n := code c in
  between 9 13 n || between 28 32 n || (n =? 133)%N || (n =? 160)%N.

(** The regex class [\w]: alphanumerics and the underscore. *)
Definition isword (c : ascii) : bool :=
  let n := code c in
  between 48 57 n || between 65 90 n || (n =? 95)%N || between 97 122 n
  || (n =? 170)%N || between 178 179 n || (n =? 181)%N || between 185 186 n
  || between 188 190 n || between 192 214 n || between 216 246 n
  || between 248 255 n.

Definition lower_char (c : ascii) : ascii :=
  let n := code c in
  if between 65 90 n || between 192 214 n || between 216 222 n
  then ascii_of_N (n + 32) else c.

Fixpoint map (f : ascii -> ascii) (s : string) : string :=
  match s with
  | EmptyString => EmptyString
  | String c s' => String (f c) (map f s')
  end.

Fixpoint filter (p : ascii -> bool) (s : string) : string :=
  match s with
  | EmptyString => EmptyString
  | String c s' => if p c then String c (filter p s') else filter p s'
  end.

Fixpoint forallb (p : ascii -> bool) (s : string) : bool :=
  match s with
  | EmptyString => true
  | String c s' => p c && forallb p s'
  end.

(** [s.lower()] *)
Definition lower (s : string) : string := map lower_char s.

(** truthiness of a string: [bool(s)] *)
Definition nonempty (s : string) : bool :=
  match s with EmptyString => false | String _ _ => true end.

(** [sub in s] *)
Fixpoint contains (sub s : string) : bool :=
  String.prefix sub s ||
  match s with
  | EmptyString => false
  | String _ s' => contains sub s'
  end.

(** [s.lstrip()], [s.rstrip()], [s.strip()] *)
Fixpoint lstrip (s : string) : string :=
  match s with
  | EmptyString => EmptyString
  | String c s' => if isspace c then lstrip s' else s
  end.

Fixpoint rstrip (s : string) : string :=
  match s with
  | EmptyString => EmptyString
  | String c s' =>
      match rstrip s' with
      | EmptyString => if isspace c then EmptyString else String c EmptyString
      | r => String c r
      end
  end.

Definition strip (s : string) : string := rstrip (lstrip s).

(** [s.split()]: the maximal runs of non-whitespace characters.  [cur] is
    the run being read. *)
Fixpoint split_from (cur : string) (s : string) : list string :=
  match s with
  | EmptyString => if nonempty cur then [cur] else []
  | String c s' =>
      if isspace c
      then (if nonempty cur then cur :: split_from EmptyString s'
            else split_from EmptyString s')
      else split_from (cur +:+ String c EmptyString) s'
  end.

Definition split (s : string) : list string := split_from EmptyString s.

(** [s[:n]] *)
Fixpoint take (n : nat) (s : string) : string :=
  match n, s with
  | S n', String c s' => String c (take n' s')
  | _, _ => EmptyString
  end.

(** [s.replace(a, b)] for one-character [a] and [b] *)
Definition replace_char (a b : ascii) (s : string) : string :=
  map (fun c => if Ascii.eqb c a then b else c) s.

(** [sep.join(l)] *)
Definition join (sep : string) (l : list string) : string :=
  String.concat sep l.

(** [s * n] *)
Fixpoint times (s : string) (n : nat) : string :=
  match n with
  | 0 => EmptyString
  | S n' => s +:+ times s n'
  end.

(** [str(n)] for a non-negative integer *)
Definition of_nat (n : nat) : string := NilZero.string_of_uint (Nat.to_uint n).

(** [o or d] for an optional string *)
Definition truthy (o : option string) : bool :=
  match o with Some s => nonempty s | None => false end.

Definition or_else (a b : option string) : option string :=
  if truthy a then a else b.




End Str.

Arguments Str.join : simpl never.

(** The newline character and the one-line string holding it. *)
Definition nl : string := String (ascii_of_nat 10) EmptyString.

(** The tab and the double quote, likewise. *)
Definition tab : string := String (ascii_of_nat 9) EmptyString.
Definition dq : string := String (ascii_of_nat 34) EmptyString.

(** ** Data read from the cache *)

(** One transcript segment: [{text, source, ...}]. *)
Record segment := {
  s_text : option string;
  s_source : option string;
}.

(** The [people] annotation: a dict (of which only [title] is read) or some
    other JSON value. *)
Inductive people_t :=
| PeopleDict (p_title : option string)
| PeopleOther.

(** Document metadata, one per transcript id. *)
Record document := {
  d_id : option string;
  d_title : option string;
  d_start_time : option string;
  d_startTime : option string;
  d_created_at : option string;
  d_meeting_end_count : option Z;
  d_people : option people_t;
  (** [google_calendar_event.summary]; [None] when there is no event or the
      event has no summary *)
  d_calendar_summary : option string;
}.

(** The empty dict [{}] used as the default of [doc_lookup.get]. *)
Definition empty_document : document :=
  {| d_id := None; d_title := None; d_start_time := None; d_startTime := None;
     d_created_at := None; d_meeting_end_count := None; d_people := None;
     d_calendar_summary := None |}.

(** [state['documents']]: a mapping by id, or a list of records carrying
    their own id. *)
Inductive documents_t :=
| DocsDict (m : gmap string document)
| DocsList (l : list document).

(** The [state] mapping returned by [load_cache]; an absent [transcripts]
    key is the empty list. *)
Record cache_state := {
  transcripts : list (string * list segment);
  documents : documents_t;
}.

(** [{d.get('id'): d for d in documents}], restricted to string keys: a later
    record with the same id replaces an earlier one. *)
Definition index_documents (l : list document) : gmap string document :=
  fold_left (fun m d => match d_id d with Some i => <[i := d]> m | None => m end)
            l ∅.

(** [documents if isinstance(documents, dict) else {...}] *)
Definition doc_lookup_of (docs : documents_t) : gmap string document :=
  match docs with
  | DocsDict m => m
  | DocsList l => index_documents l
  end.

(** [sum(len(e.get('text', '').split()) for e in entries) if entries else 0] *)
Definition word_count (entries : list segment) : nat :=
  match entries with
  | [] => 0
  | _ => list_sum (List.map (fun e => length (Str.split (default "" (s_text e)))) entries)
  end.

(** [datetime.now()]: the two renderings the scripts use. *)
Record datetime := {
  strftime_ymd : string;
  isoformat : string;
}.

(** [os.path.join(a, b)] on POSIX paths. *)
Definition path_join (a b : string) : string :=
  if String.prefix "/" b then b
  else if negb (Str.nonempty a) || String.prefix "/" (String.rev a) then a +:+ b
  else a +:+ "/" +:+ b.

(** ** [granola_sync.py] *)

Module Sync.

(** The configuration block at the head of the script.  [CLIENT_ROUTES] is a
    dict literal, iterated in the order it is written. *)
Record config := {
  INBOX_DIR : string;
  CLIENTS_DIR : string;
  CLIENT_ROUTES : list (list string * string);
}.

(** The table as shipped. *)
Definition shipped_routes : list (list string * string) :=
  [ (["acme"; "acme corp"; "jane"], "Acme-Corp");
    (["internal"; "standup"; "retro"], "Internal") ].

(** A ledger entry, [tracking[doc_id]].  Every entry the script writes, and
    every stub it makes of a legacy ledger, has the keys [synced_at] and
    [routed]; so an entry is never the empty dict and [if tracked:] asks
    whether the id has an entry.  [None] in the optional fields is an absent
    key or a JSON [null]. *)
Record entry := {
  e_synced_at : string;
  e_routed : bool;
  e_client : option string;
  e_file : option string;
  e_title : option string;
}.

(** [is_meeting_done(doc, entries)] *)
Definition is_meeting_done (doc : document) (entries : list segment) : bool :=
  let end_count := d_meeting_end_count doc in
  let title := d_title doc in
  let word_count := word_count entries in
  if match end_count with
     | None => true
     | Some n => (n =? 0)%Z || (n <? 1)%Z
     end
  then false
  else if negb (Str.truthy title) then false
  else if (word_count <? 50)%nat then false
  else true.

(** The inner loop of [match_client]: [for kw in keywords: if kw in search_text]. *)
Fixpoint any_keyword (keywords : list string) (search_text : string) : bool :=
  match keywords with
  | [] => false
  | kw :: rest =>
      if Str.contains kw search_text then true else any_keyword rest search_text
  end.

(** The outer loop of [match_client] over [CLIENT_ROUTES.items()]. *)
Fixpoint first_route (routes : list (list string * string)) (search_text : string)
  : option string :=
  match routes with
  | [] => None
  | (keywords, folder_name) :: rest =>
      if any_keyword keywords search_text then Some folder_name
      else first_route rest search_text
  end.

(** The text [match_client] searches in. *)
Definition search_text_of (title : option string) (people : option people_t) : string :=
  let search_text := Str.lower (default "" (Str.or_else title (Some ""))) in
  match people with
  | Some (PeopleDict (Some people_title)) =>
      if Str.nonempty people_title
      then search_text +:+ " " +:+ Str.lower people_title
      else search_text
  | _ => search_text
  end.

(** [match_client(title, people)] *)
Definition match_client (routes : list (list string * string))
  (title : option string) (people : option people_t) : option string :=
  first_route routes (search_text_of title people).

(** The loop of [format_transcript]; [lines] and [current_source] are its two
    local variables. *)
Fixpoint format_loop (entries : list segment) (lines : list string)
  (current_source : option string) : list string :=
  match entries with
  | [] => lines
  | entry :: rest =>
      let text := Str.strip (default "" (s_text entry)) in
      let source := default "unknown" (s_source entry) in
      if negb (Str.nonempty text) then format_loop rest lines current_source
      else if bool_decide (Some source ≠ current_source) then
        let label :=
          if String.eqb source "microphone" then nl +:+ "**[You]** "
          else if String.eqb source "system" then nl +:+ "**[Other]** "
          else nl +:+ "**[" +:+ source +:+ "]** " in
        format_loop rest (lines ++ [label; text]) (Some source)
      else format_loop rest (lines ++ [text]) current_source
  end.

(** [format_transcript(entries)] *)
Definition format_transcript (entries : list segment) : string :=
  Str.join " " (format_loop entries [] None).

(** [re.sub(r'-+', '-', s)] *)
Fixpoint collapse_hyphens (s : string) : string :=
  match s with
  | EmptyString => EmptyString
  | String c s' =>
      if Ascii.eqb c "-"
      then match s' with
           | String c' _ =>
               if Ascii.eqb c' "-" then collapse_hyphens s'
               else String c (collapse_hyphens s')
           | EmptyString => String c EmptyString
           end
      else String c (collapse_hyphens s')
  end.

(** The characters [re.sub(r'[^\w\s-]', '', title)] keeps. *)
Definition kept_char (c : ascii) : bool :=
  Str.isword c || Str.isspace c || Ascii.eqb c "-".

(** The sanitized title of [make_filename]. *)
Definition safe_title (title : string) : string :=
  collapse_hyphens
    (Str.replace_char " " "-" (Str.strip (Str.take 60 (Str.filter kept_char title)))).

(** [make_filename(date_str, title)] *)
Definition make_filename (date_str title : string) : string :=
  date_str +:+ "-" +:+ safe_title title +:+ ".md".

(** [build_content(title, doc, entries)] *)
Definition build_content (title : string) (doc : document) (entries : list segment)
  : string :=
  let start_time :=
    default "" (Str.or_else (d_start_time doc)
                 (Str.or_else (d_startTime doc)
                   (Str.or_else (d_created_at doc) (Some "")))) in
  let word_count := word_count entries in
  let doc_id := default "unknown" (d_id doc) in
  let cal_title := default "" (d_calendar_summary doc) in
  let content := "# " +:+ title +:+ nl +:+ nl in
  let content := content +:+ "**Meeting ID:** " +:+ doc_id +:+ nl in
  let content :=
    if Str.nonempty cal_title && negb (String.eqb cal_title title)
    then content +:+ "**Calendar:** " +:+ cal_title +:+ nl else content in
  let content :=
    content +:+ "**Date:** "
    +:+ (if Str.nonempty start_time then start_time else "Unknown") +:+ nl in
  let content := content +:+ "**Words:** ~" +:+ Str.of_nat word_count +:+ nl in
  let content :=
    content +:+ "**Segments:** " +:+ Str.of_nat (length entries) +:+ nl +:+ nl in
  let content := content +:+ "---" +:+ nl +:+ nl in
  content +:+ format_transcript entries.

(** *** The run: ledger, file system, clock, counters and printed lines *)

Record world := {
  tracking : gmap string entry;     (* the ledger, as loaded and as saved *)
  files : gmap string string;       (* path -> content *)
  dirs : gset string;               (* directories made by [os.makedirs] *)
  tick : nat;                       (* calls of [datetime.now()] so far *)
  new_count : nat;
  routed_count : nat;
  updated_count : nat;
  stdout : list string;             (* lines printed, oldest first *)
}.

Definition set_tracking (w : world) (t : gmap string entry) : world :=
  {| tracking := t; files := files w; dirs := dirs w; tick := tick w;
     new_count := new_count w; routed_count := routed_count w;
     updated_count := updated_count w; stdout := stdout w |}.

Definition set_files (w : world) (f : gmap string string) : world :=
  {| tracking := tracking w; files := f; dirs := dirs w; tick := tick w;
     new_count := new_count w; routed_count := routed_count w;
     updated_count := updated_count w; stdout := stdout w |}.

Definition set_dirs (w : world) (d : gset string) : world :=
  {| tracking := tracking w; files := files w; dirs := d; tick := tick w;
     new_count := new_count w; routed_count := routed_count w;
     updated_count := updated_count w; stdout := stdout w |}.

Definition set_tick (w : world) (n : nat) : world :=
  {| tracking := tracking w; files := files w; dirs := dirs w; tick := n;
     new_count := new_count w; routed_count := routed_count w;
     updated_count := updated_count w; stdout := stdout w |}.

Definition set_counts (w : world) (n r u : nat) : world :=
  {| tracking := tracking w; files := files w; dirs := dirs w; tick := tick w;
     new_count := n; routed_count := r; updated_count := u; stdout := stdout w |}.

(** [print(line)] *)
Definition print (w : world) (line : string) : world :=
  {| tracking := tracking w; files := files w; dirs := dirs w; tick := tick w;
     new_count := new_count w; routed_count := routed_count w;
     updated_count := updated_count w; stdout := stdout w ++ [line] |}.

(** [with open(path, 'w') as f: f.write(content)] *)
Definition write_file (w : world) (path content : string) : world :=
  set_files w (<[path := content]> (files w)).

(** [os.remove(path)] *)
Definition remove_file (w : world) (path : string) : world :=
  set_files w (delete path (files w)).

(** [os.path.exists(path)] *)
Definition path_exists (w : world) (path : string) : bool :=
  bool_decide (is_Some (files w !! path)).

(** [os.makedirs(path, exist_ok=True)] *)
Definition makedirs (w : world) (path : string) : world :=
  set_dirs w ({[path]} ∪ dirs w).

Section Run.

Variable cfg : config.
Variable now : nat -> datetime.

(** [datetime.now()] *)
Definition datetime_now (w : world) : datetime * world :=
  (now (tick w), set_tick w (S (tick w))).

(** The directory [get_client_call_notes_dir] returns. *)
Definition call_notes_path (client_folder : string) : string :=
  path_join (path_join (CLIENTS_DIR cfg) client_folder) "call-notes".

(** [get_client_call_notes_dir(client_folder)] *)
Definition get_client_call_notes_dir (client_folder : string) (w : world)
  : string * world :=
  let path := call_notes_path client_folder in
  (path, makedirs w path).

(** [get_date_prefix(doc)] *)
Definition get_date_prefix (doc : document) (w : world) : string * world :=
  let start_time :=
    default "" (Str.or_else (d_start_time doc)
                 (Str.or_else (d_startTime doc)
                   (Str.or_else (d_created_at doc) (Some "")))) in
  if Str.nonempty start_time && (10 <=? String.length start_time)%nat
  then (Str.take 10 start_time, w)
  else let '(t, w) := datetime_now w in (strftime_ymd t, w).

(** The ledger entry the three writing branches store. *)
Definition fresh_entry (w : world) (routed : bool) (client : option string)
  (filename title : string) : entry * world :=
  let '(t, w) := datetime_now w in
  ({| e_synced_at := isoformat t; e_routed := routed; e_client := client;
      e_file := Some filename; e_title := Some title |}, w).

(** The body of the [for doc_id, entries in transcripts.items()] loop. *)
Definition sync_one (doc_lookup : gmap string document) (w : world)
  (item : string * list segment) : world :=
  let '(doc_id, entries) := item in
  match entries with
  | [] => w
  | _ :: _ =>
  let doc := default empty_document (doc_lookup !! doc_id) in
  if negb (is_meeting_done doc entries) then w else
  let title := default "Untitled Meeting" (d_title doc) in
  let '(date_prefix, w) := get_date_prefix doc w in
  let people := d_people doc in
  let client_folder := match_client (CLIENT_ROUTES cfg) (Some title) people in
  let '(dest_dir, w) :=
    if Str.truthy client_folder
    then get_client_call_notes_dir (default "" client_folder) w
    else (INBOX_DIR cfg, w) in
  let filename := make_filename date_prefix title in
  let filepath := path_join dest_dir filename in
  match tracking w !! doc_id with
  | Some tracked =>
      let old_file := e_file tracked in
      let was_routed := e_routed tracked in
      if negb was_routed && Str.truthy client_folder && Str.truthy old_file then
        let old_path := path_join (INBOX_DIR cfg) (default "" old_file) in
        if path_exists w old_path then
          let content := build_content title doc entries in
          let w := write_file w filepath content in
          let w := remove_file w old_path in
          let '(e, w) := fresh_entry w true client_folder filename title in
          let w := set_tracking w (<[doc_id := e]> (tracking w)) in
          let w := set_counts w (new_count w) (S (routed_count w)) (updated_count w) in
          print w ("Routed: " +:+ default "" old_file +:+ " -> "
                   +:+ default "" client_folder +:+ "/call-notes/" +:+ filename)
        else w
      else if Str.truthy old_file && bool_decide (e_title tracked ≠ Some title) then
        let old_path :=
          path_join (if was_routed then dest_dir else INBOX_DIR cfg)
                    (default "" old_file) in
        if path_exists w old_path then
          let content := build_content title doc entries in
          let w := write_file w filepath content in
          let w := if bool_decide (old_path ≠ filepath)
                   then remove_file w old_path else w in
          let '(e, w) :=
            fresh_entry w was_routed (if was_routed then client_folder else None)
                        filename title in
          let w := set_tracking w (<[doc_id := e]> (tracking w)) in
          let w := set_counts w (new_count w) (routed_count w) (S (updated_count w)) in
          print w ("Updated: " +:+ default "" old_file +:+ " -> " +:+ filename)
        else w
      else w
  | None =>
      let content := build_content title doc entries in
      let w := write_file w filepath content in
      let '(e, w) :=
        fresh_entry w (Str.truthy client_folder) client_folder filename title in
      let w := set_tracking w (<[doc_id := e]> (tracking w)) in
      let w := set_counts w (S (new_count w)) (routed_count w) (updated_count w) in
      if Str.truthy client_folder
      then print w ("Synced -> " +:+ default "" client_folder +:+ "/call-notes/"
                    +:+ filename)
      else print w ("Synced -> inbox/" +:+ filename)
  end
  end.

(** The summary printed after the loop. *)
Definition print_summary (w : world) : world :=
  let total := new_count w + routed_count w + updated_count w in
  if (total =? 0)%nat then print w "No new transcripts to sync."
  else
    let parts := [] in
    let parts := if (new_count w =? 0)%nat then parts
                 else parts ++ [Str.of_nat (new_count w) +:+ " new"] in
    let parts := if (routed_count w =? 0)%nat then parts
                 else parts ++ [Str.of_nat (routed_count w) +:+ " routed"] in
    let parts := if (updated_count w =? 0)%nat then parts
                 else parts ++ [Str.of_nat (updated_count w) +:+ " updated"] in
    print w (nl +:+ "Done: " +:+ Str.join ", " parts +:+ ".").

(** A world with the counters at zero and nothing printed. *)
Definition start (tracking0 : gmap string entry) (files0 : gmap string string)
  (dirs0 : gset string) (tick0 : nat) : world :=
  {| tracking := tracking0; files := files0; dirs := dirs0; tick := tick0;
     new_count := 0; routed_count := 0; updated_count := 0; stdout := [] |}.

(** [sync_transcripts()], given the [state] that [load_cache] returned and the
    world [w0] it runs in (of which it reads the disk, the ledger
    [load_tracking] returns and the clock; its counters start at zero).  The
    ledger of the result is what [save_tracking] writes. *)
Definition sync_transcripts (state : cache_state) (w0 : world) : world :=
  let w := makedirs w0 (INBOX_DIR cfg) in
  let w := start (tracking w) (files w) (dirs w) (tick w) in
  let doc_lookup := doc_lookup_of (documents state) in
  let w := fold_left (sync_one doc_lookup) (transcripts state) w in
  print_summary w.

End Run.

(** *** Loading the ledger *)

(** What is at [TRACKING_FILE], once decoded: nothing, a legacy list of ids,
    or the mapping a run saved. *)
Inductive tracking_file :=
| NoTrackingFile
| LegacyIds (ids : list string)
| Entries (m : gmap string entry).

(** The stub a legacy id is given:
    [{"synced_at": "unknown", "routed": False, "file": None}]. *)
Definition legacy_stub : entry :=
  {| e_synced_at := "unknown"; e_routed := false; e_client := None;
     e_file := None; e_title := None |}.

(** [load_tracking()] *)
Definition load_tracking (f : tracking_file) : gmap string entry :=
  match f with
  | NoTrackingFile => ∅
  | LegacyIds ids => fold_left (fun m id_ => <[id_ := legacy_stub]> m) ids ∅
  | Entries m => m
  end.

End Sync.

(** ** [granola_transcripts.py] *)

Module Transcripts.

(** One element of the list [get_transcripts_with_docs] builds. *)
Record listing := {
  t_id : string;
  t_title : string;
  t_start_time : option string;
  t_entries : list segment;
  t_word_count : nat;
}.

(** The loop of [get_transcripts_with_docs] that fills [results]. *)
Fixpoint collect (doc_lookup : gmap string document)
  (items : list (string * list segment)) : list listing :=
  match items with
  | [] => []
  | (doc_id, entries) :: rest =>
      match entries with
      | [] => collect doc_lookup rest
      | _ :: _ =>
          let doc := default empty_document (doc_lookup !! doc_id) in
          {| t_id := doc_id;
             t_title := default "Untitled Meeting" (d_title doc);
             t_start_time := Str.or_else (d_start_time doc) (d_startTime doc);
             t_entries := entries;
             t_word_count :=
               list_sum (List.map (fun e => length (Str.split (default "" (s_text e))))
                                  entries) |}
          :: collect doc_lookup rest
      end
  end.

(** The sort key [x.get('start_time') or '']. *)
Definition sort_key (x : listing) : string :=
  default "" (Str.or_else (t_start_time x) (Some "")).

(** [sorted(results, key=..., reverse=True)]: descending by key, elements
    with equal keys in their original order.  [insert_desc x l] puts [x],
    which came before every element of [l], into the sorted [l]. *)
Fixpoint insert_desc (x : listing) (l : list listing) : list listing :=
  match l with
  | [] => [x]
  | y :: l' =>
      if String.leb (sort_key y) (sort_key x) then x :: y :: l'
      else y :: insert_desc x l'
  end.

Fixpoint sorted_desc (l : list listing) : list listing :=
  match l with
  | [] => []
  | x :: l' => insert_desc x (sorted_desc l')
  end.

(** [get_transcripts_with_docs(state)] *)
Definition get_transcripts_with_docs (state : cache_state) : list listing :=
  sorted_desc (collect (doc_lookup_of (documents state)) (transcripts state)).

(** The loop of this script's [format_transcript]. *)
Fixpoint format_loop (entries : list segment) (lines : list string)
  (current_source : option string) : list string :=
  match entries with
  | [] => lines
  | entry :: rest =>
      let text := Str.strip (default "" (s_text entry)) in
      let source := default "unknown" (s_source entry) in
      if negb (Str.nonempty text) then format_loop rest lines current_source
      else if bool_decide (Some source ≠ current_source) then
        let lines :=
          if String.eqb source "microphone" then lines ++ [nl +:+ "**[You]**"]
          else if String.eqb source "system" then lines ++ [nl +:+ "**[Other]**"]
          else lines in
        format_loop rest (lines ++ [text]) (Some source)
      else format_loop rest (lines ++ [text]) current_source
  end.

(** [format_transcript(entries)] *)
Definition format_transcript (entries : list segment) : string :=
  Str.join " " (format_loop entries [] None).

(** The test of the loop of [show_transcript]. *)
Definition matches (doc_id : string) (t : listing) : bool :=
  String.eqb (t_id t) doc_id
  || Str.contains (Str.lower doc_id) (Str.lower (t_title t)).

(** What [show_transcript] prints for the transcript it picks. *)
Definition show_lines (t : listing) : list string :=
  [ "# " +:+ t_title t;
    "Words: ~" +:+ Str.of_nat (t_word_count t);
    Str.times "=" 60;
    format_transcript (t_entries t) ].

(** The loop of [show_transcript], with its early [return]. *)
Fixpoint show_loop (doc_id : string) (ts : list listing) : list string :=
  match ts with
  | [] => ["Transcript not found: " +:+ doc_id]
  | t :: rest => if matches doc_id t then show_lines t else show_loop doc_id rest
  end.

(** [show_transcript(doc_id)], given the [state] that [load_cache] returned:
    the lines printed. *)
Definition show_transcript (state : cache_state) (doc_id : string) : list string :=
  show_loop doc_id (get_transcripts_with_docs state).

(** *** [list_transcripts], [search_transcripts] and [export_all] *)





(** The characters [re.sub(r'[^\w\s-]', '', title)] keeps. *)
Definition kept_char (c : ascii) : bool :=
  Str.isword c || Str.isspace c || Ascii.eqb c "-".

(** The file name [export_all] gives a transcript. *)
Definition export_filename (t : listing) : string :=
  let title := if Str.nonempty (t_title t) then t_title t else "Untitled" in
  let safe_title := Str.take 50 (Str.filter kept_char title) in
  Str.replace_char " " "-" (Str.strip safe_title) +:+ ".md".

(** The content [export_all] writes for a transcript. *)
Definition export_content (t : listing) : string :=
  let content := "# " +:+ t_title t +:+ nl +:+ nl in
  let content := content +:+ "**ID:** " +:+ t_id t +:+ nl in
  let content := content +:+ "**Words:** ~" +:+ Str.of_nat (t_word_count t) +:+ nl +:+ nl in
  let content := content +:+ "---" +:+ nl +:+ nl in
  content +:+ format_transcript (t_entries t).

(** What [export_all] acts on: the files, the directories made, and the
    lines printed. *)
Record disk := {
  files : gmap string string;
  dirs : gset string;
  stdout : list string;
}.

(** The body of the loop of [export_all]. *)
Definition export_one (export_dir : string) (d : disk) (t : listing) : disk :=
  let filename := export_filename t in
  let filepath := path_join export_dir filename in
  {| files := <[filepath := export_content t]> (files d);
     dirs := dirs d;
     stdout := stdout d ++ ["Exported: " +:+ filename] |}.

(** [export_all()], given [EXPORT_DIR], the [state] that [load_cache]
    returned and the disk. *)
Definition export_all (export_dir : string) (state : cache_state) (d : disk) : disk :=
  let d := {| files := files d; dirs := {[export_dir]} ∪ dirs d; stdout := stdout d |} in
  let d := fold_left (export_one export_dir) (get_transcripts_with_docs state) d in
  {| files := files d; dirs := dirs d;
     stdout := stdout d ++ [nl +:+ "All transcripts exported to: " +:+ export_dir] |}.

(** The block [list_transcripts] prints for a transcript. *)
Definition list_block (t : listing) : list string :=
  let preview_entries := List.firstn 5 (t_entries t) in
  let preview :=
    Str.join " | " (List.map (fun e => Str.take 30 (default "" (s_text e)))
                             preview_entries) in
  [ nl +:+ t_title t;
    "   ID: " +:+ t_id t;
    "   Words: ~" +:+ Str.of_nat (t_word_count t);
    "   Preview: " +:+ Str.take 80 preview +:+ "..." ].

(** [list_transcripts()], given the [state] that [load_cache] returned: the
    lines printed. *)
Definition list_transcripts (state : cache_state) : list string :=
  [Str.times "=" 60; "GRANOLA TRANSCRIPTS"; Str.times "=" 60]
  ++ List.concat (List.map list_block (get_transcripts_with_docs state)).

End Transcripts.

(** ** The cache reader, [load_cache] (the same text in both scripts) *)

Module Json.

(** A decoded JSON value.  A number keeps its literal; an object keeps its
    members in the order read. *)
#[local] Set Warnings "-register-all".

Inductive value :=
| JNull
| JBool (b : bool)
| JNumber (literal : string)
| JString (s : string)
| JArray (items : list value)
| JObject (members : list (string * value)).

(** [d.get(key)] on a decoded object: of two members with one key the later
    one counts. *)
Fixpoint member (key : string) (members : list (string * value)) : option value :=
  match members with
  | [] => None
  | (k, v) :: rest =>
      match member key rest with
      | Some v' => Some v'
      | None => if String.eqb k key then Some v else None
      end
  end.

(** *** A reference decoder for [json.loads] *)

Fixpoint skip_ws (s : string) : string :=
  match s with
  | String c s' =>
      let n := Str.code c in
      if (n =? 32)%N || (n =? 9)%N || (n =? 10)%N || (n =? 13)%N
      then skip_ws s' else s
  | EmptyString => EmptyString
  end.

(** [s] without its prefix [p], when it has it. *)
Fixpoint strip_prefix (p s : string) : option string :=
  match p, s with
  | EmptyString, _ => Some s
  | String a p', String b s' => if Ascii.eqb a b then strip_prefix p' s' else None
  | String _ _, EmptyString => None
  end.

Definition hex_digit (c : ascii) : option N :=
  let n := Str.code c in
  if Str.between 48 57 n then Some (n - 48)%N
  else if Str.between 65 70 n then Some (n - 55)%N
  else if Str.between 97 102 n then Some (n - 87)%N
  else None.

(** The character a one-letter escape stands for. *)
Definition simple_escape (c : ascii) : option ascii :=
  let n := Str.code c in
  if (n =? 34)%N then Some (ascii_of_N 34)
  else if (n =? 92)%N then Some (ascii_of_N 92)
  else if (n =? 47)%N then Some (ascii_of_N 47)
  else if (n =? 98)%N then Some (ascii_of_N 8)
  else if (n =? 102)%N then Some (ascii_of_N 12)
  else if (n =? 110)%N then Some (ascii_of_N 10)
  else if (n =? 114)%N then Some (ascii_of_N 13)
  else if (n =? 116)%N then Some (ascii_of_N 9)
  else None.

(** The rest of a string literal after its opening quote: the decoded text
    and what follows the closing quote.  Control characters are refused; a
    [\u] escape is decoded when it names a code point below 256. *)
Fixpoint string_body (s : string) : option (string * string) :=
  match s with
  | EmptyString => None
  | String c s' =>
      let n := Str.code c in
      if (n =? 34)%N then Some (EmptyString, s')
      else if (n =? 92)%N then
        match s' with
        | String e s'' =>
            if (Str.code e =? 117)%N then
              match s'' with
              | String h1 (String h2 (String h3 (String h4 s5))) =>
                  match hex_digit h1, hex_digit h2, hex_digit h3, hex_digit h4 with
                  | Some 0%N, Some 0%N, Some a, Some b =>
                      match string_body s5 with
                      | Some (r, rest) => Some (String (ascii_of_N (16 * a + b)) r, rest)
                      | None => None
                      end
                  | _, _, _, _ => None
                  end
              | _ => None
              end
            else
              match simple_escape e with
              | Some ch =>
                  match string_body s'' with
                  | Some (r, rest) => Some (String ch r, rest)
                  | None => None
                  end
              | None => None
              end
        | EmptyString => None
        end
      else if (n <? 32)%N then None
      else
        match string_body s' with
        | Some (r, rest) => Some (String c r, rest)
        | None => None
        end
  end.

(** The longest prefix of digits, and the rest. *)
Fixpoint digits (s : string) : string * string :=
  match s with
  | String c s' =>
      if Str.between 48 57 (Str.code c)
      then let '(d, rest) := digits s' in (String c d, rest)
      else (EmptyString, s)
  | EmptyString => (EmptyString, EmptyString)
  end.

(** A number literal: an optional minus sign, an integer part without a
    leading zero, and optionally a fraction and an exponent. *)
Definition number (s : string) : option (string * string) :=
  let '(sign, s1) :=
    match strip_prefix "-" s with Some r => ("-", r) | None => (EmptyString, s) end in
  let '(int, s2) := digits s1 in
  let int_ok :=
    match int with
    | EmptyString => false
    | String c EmptyString => true
    | String c _ => negb (Str.code c =? 48)%N
    end in
  if negb int_ok then None else
  let '(frac, s3) :=
    match strip_prefix "." s2 with
    | Some r =>
        let '(d, r') := digits r in
        if Str.nonempty d then ("." +:+ d, r') else (EmptyString, s2)
    | None => (EmptyString, s2)
    end in
  let '(exp, s4) :=
    match s3 with
    | String e r =>
        if (Str.code e =? 101)%N || (Str.code e =? 69)%N then
          let '(sg, r1) :=
            match r with
            | String g r' =>
                if (Str.code g =? 43)%N || (Str.code g =? 45)%N
                then (String g EmptyString, r') else (EmptyString, r)
            | EmptyString => (EmptyString, r)
            end in
          let '(d, r2) := digits r1 in
          if Str.nonempty d then (String e sg +:+ d, r2) else (EmptyString, s3)
        else (EmptyString, s3)
    | EmptyString => (EmptyString, s3)
    end in
  Some (sign +:+ int +:+ frac +:+ exp, s4).

(** One value at the head of [s], and the rest of [s]. *)
Fixpoint parse_value (fuel : nat) (s : string) : option (value * string) :=
  match fuel with
  | 0 => None
  | S fuel =>
      match skip_ws s with
      | EmptyString => None
      | String c s' as s0 =>
          let n := Str.code c in
          if (n =? 34)%N then
            match string_body s' with
            | Some (t, rest) => Some (JString t, rest)
            | None => None
            end
          else if (n =? 91)%N then
            match skip_ws s' with
            | String c' rest =>
                if (Str.code c' =? 93)%N then Some (JArray [], rest)
                else match parse_items fuel s' with
                     | Some (l, rest') => Some (JArray l, rest')
                     | None => None
                     end
            | EmptyString => None
            end
          else if (n =? 123)%N then
            match skip_ws s' with
            | String c' rest =>
                if (Str.code c' =? 125)%N then Some (JObject [], rest)
                else match parse_members fuel s' with
                     | Some (l, rest') => Some (JObject l, rest')
                     | None => None
                     end
            | EmptyString => None
            end
          else
            match strip_prefix "null" s0, strip_prefix "true" s0,
                  strip_prefix "false" s0 with
            | Some rest, _, _ => Some (JNull, rest)
            | _, Some rest, _ => Some (JBool true, rest)
            | _, _, Some rest => Some (JBool false, rest)
            | _, _, _ =>
                match strip_prefix "NaN" s0, strip_prefix "Infinity" s0,
                      strip_prefix "-Infinity" s0 with
                | Some rest, _, _ => Some (JNumber "NaN", rest)
                | _, Some rest, _ => Some (JNumber "Infinity", rest)
                | _, _, Some rest => Some (JNumber "-Infinity", rest)
                | _, _, _ =>
                    match number s0 with
                    | Some (lit, rest) => Some (JNumber lit, rest)
                    | None => None
                    end
                end
            end
      end
  end
with parse_items (fuel : nat) (s : string) : option (list value * string) :=
  match fuel with
  | 0 => None
  | S fuel =>
      match parse_value fuel s with
      | Some (v, rest) =>
          match skip_ws rest with
          | String c rest' =>
              if (Str.code c =? 44)%N then
                match parse_items fuel rest' with
                | Some (vs, r) => Some (v :: vs, r)
                | None => None
                end
              else if (Str.code c =? 93)%N then Some ([v], rest')
              else None
          | EmptyString => None
          end
      | None => None
      end
  end
with parse_members (fuel : nat) (s : string)
  : option (list (string * value) * string) :=
  match fuel with
  | 0 => None
  | S fuel =>
      match skip_ws s with
      | String q s1 =>
          if negb (Str.code q =? 34)%N then None else
          match string_body s1 with
          | Some (k, s2) =>
              match skip_ws s2 with
              | String colon s3 =>
                  if negb (Str.code colon =? 58)%N then None else
                  match parse_value fuel s3 with
                  | Some (v, s4) =>
                      match skip_ws s4 with
                      | String c rest' =>
                          if (Str.code c =? 44)%N then
                            match parse_members fuel rest' with
                            | Some (kvs, r) => Some ((k, v) :: kvs, r)
                            | None => None
                            end
                          else if (Str.code c =? 125)%N then Some ([(k, v)], rest')
                          else None
                      | EmptyString => None
                      end
                  | None => None
                  end
              | EmptyString => None
              end
          | None => None
          end
      | EmptyString => None
      end
  end.

(** [json.loads(s)]; [None] is [JSONDecodeError]. *)
Definition loads (s : string) : option value :=
  match parse_value (2 * String.length s + 2) s with
  | Some (v, rest) =>
      match skip_ws rest with
      | EmptyString => Some v
      | String _ _ => None
      end
  | None => None
  end.

End Json.

(** The exceptions [load_cache] can end in. *)
Inductive error :=
| OSError               (* [open]: the file is missing or unreadable *)
| JSONDecodeError       (* [json.load] / [json.loads] *)
| KeyError              (* [data['cache']] on a dict without the key *)
| TypeError             (* [data['cache']] on a non-dict, [json.loads] of a non-string *)
| AttributeError.       (* [cache.get] on a non-dict *)

Inductive result (A : Type) :=
| Return (a : A)
| Raise (e : error).

Arguments Return {A} a.
Arguments Raise {A} e.

Section CacheReader.

(** [json.loads]; the text of a file is decoded by the same function. *)
Variable json_loads : string -> option Json.value.

(** [load_cache()], given what is at [CACHE_PATH]: [None] when [open] fails,
    else the text of the file. *)
Definition load_cache (file : option string) : result Json.value :=
  match file with
  | None => Raise OSError
  | Some text =>
      match json_loads text with
      | None => Raise JSONDecodeError
      | Some data =>
          match data with
          | Json.JObject members =>
              match Json.member "cache" members with
              | None => Raise KeyError
              | Some (Json.JString inner) =>
                  match json_loads inner with
                  | None => Raise JSONDecodeError
                  | Some (Json.JObject cache) =>
                      Return (default (Json.JObject []) (Json.member "state" cache))
                  | Some _ => Raise AttributeError
                  end
              | Some _ => Raise TypeError
              end
          | _ => Raise TypeError
          end
      end
  end.

End CacheReader.

(** ** Notions used in the statements below *)


(** [x] may stand before [y] in a list sorted by start time, latest first. *)
Definition later_first (x y : Transcripts.listing) : Prop :=
  String.leb (Transcripts.sort_key y) (Transcripts.sort_key x) = true.

(** A cache of two transcripts: the title of the later one mentions the id
    of the earlier one. *)
Definition words (n : nat) : list segment :=
  [ {| s_text := Some (Str.times "word " n); s_source := Some "microphone" |} ].

Definition shadow_cache : cache_state :=
  {| transcripts := [ ("abc", words 3); ("zzz", words 5) ];
     documents := DocsList
       [ {| d_id := Some "abc"; d_title := Some "Weekly sync";
            d_start_time := Some "2024-01-01T09:00:00Z"; d_startTime := None;
            d_created_at := None; d_meeting_end_count := Some 1%Z;
            d_people := None; d_calendar_summary := None |};
         {| d_id := Some "zzz"; d_title := Some "Notes on ABC";
            d_start_time := Some "2024-02-01T09:00:00Z"; d_startTime := None;
            d_created_at := None; d_meeting_end_count := Some 1%Z;
            d_people := None; d_calendar_summary := None |} ] |}.

(** *** What the loop body of [sync_transcripts] reads for one transcript id *)

Section RunNotions.

Variable cfg : Sync.config.
Variable doc_lookup : gmap string document.

(** [doc_lookup.get(doc_id, {})] *)
Definition doc_of (doc_id : string) : document :=
  default empty_document (doc_lookup !! doc_id).

(** [doc.get('title', 'Untitled Meeting')] *)
Definition title_of (doc_id : string) : string :=
  default "Untitled Meeting" (d_title (doc_of doc_id)).

(** The folder the classifier gives the transcript now. *)
Definition client_of (doc_id : string) : option string :=
  Sync.match_client (Sync.CLIENT_ROUTES cfg) (Some (title_of doc_id))
    (d_people (doc_of doc_id)).

(** Its destination directory now. *)
Definition dest_dir_of (doc_id : string) : string :=
  if Str.truthy (client_of doc_id)
  then Sync.call_notes_path cfg (default "" (client_of doc_id))
  else Sync.INBOX_DIR cfg.

(** The transcript passes the two [continue] tests at the head of the loop
    body. *)
Definition eligible (item : string * list segment) : bool :=
  match item.2 with
  | [] => false
  | _ :: _ => Sync.is_meeting_done (doc_of item.1) item.2
  end.

(** The path the loop body tests with [os.path.exists] for a tracked
    transcript: that of the old inbox file when the reroute branch is
    entered, else that of the old file when the title has changed; no path
    when neither branch is entered. *)
Definition probed_path (tr : gmap string Sync.entry) (doc_id : string)
  : option string :=
  match tr !! doc_id with
  | None => None
  | Some tracked =>
      if negb (Sync.e_routed tracked) && Str.truthy (client_of doc_id)
         && Str.truthy (Sync.e_file tracked)
      then Some (path_join (Sync.INBOX_DIR cfg) (default "" (Sync.e_file tracked)))
      else if Str.truthy (Sync.e_file tracked)
              && bool_decide (Sync.e_title tracked ≠ Some (title_of doc_id))
      then Some (path_join (if Sync.e_routed tracked then dest_dir_of doc_id
                            else Sync.INBOX_DIR cfg)
                           (default "" (Sync.e_file tracked)))
      else None
  end.

End RunNotions.

Arguments Sync.build_content : simpl never.
Arguments Sync.make_filename : simpl never.
Arguments Sync.match_client : simpl never.
Arguments Sync.is_meeting_done : simpl never.
Arguments Sync.call_notes_path : simpl never.
Arguments Sync.get_date_prefix : simpl never.
Arguments path_join : simpl never.
Arguments Str.truthy : simpl never.
Arguments Str.of_nat : simpl never.
Arguments Sync.sync_one : simpl never.

(** *** The loop body in two halves *)

Section StepNotions.

Variable cfg : Sync.config.
Variable now : nat -> datetime.
Variable doc_lookup : gmap string document.

(** The date prefix the loop body computes in world [w]. *)
Definition date_prefix_of (doc_id : string) (w : Sync.world) : string :=
  (Sync.get_date_prefix now (doc_of doc_lookup doc_id) w).1.

(** The file name and the path it computes. *)
Definition filename_of (doc_id : string) (w : Sync.world) : string :=
  Sync.make_filename (date_prefix_of doc_id w) (title_of doc_lookup doc_id).

Definition filepath_of (doc_id : string) (w : Sync.world) : string :=
  path_join (dest_dir_of cfg doc_lookup doc_id) (filename_of doc_id w).

(** The world when the loop body reaches [tracked = tracking.get(doc_id)]:
    the clock may have been read for the date prefix and the client's
    directory has been made. *)
Definition prepared (doc_id : string) (w : Sync.world) : Sync.world :=
  let w1 := (Sync.get_date_prefix now (doc_of doc_lookup doc_id) w).2 in
  if Str.truthy (client_of cfg doc_lookup doc_id)
  then Sync.makedirs w1 (Sync.call_notes_path cfg (default "" (client_of cfg doc_lookup doc_id)))
  else w1.

(** Storing a new ledger entry: [tracking[doc_id] = {...}]. *)
Definition store (w : Sync.world) (doc_id : string) (routed : bool)
  (client : option string) (filename title : string) : Sync.world :=
  Sync.set_tracking (Sync.set_tick w (S (Sync.tick w)))
    (<[doc_id := {| Sync.e_synced_at := isoformat (now (Sync.tick w));
                    Sync.e_routed := routed; Sync.e_client := client;
                    Sync.e_file := Some filename; Sync.e_title := Some title |}]>
       (Sync.tracking w)).

(** The create branch, from the prepared world [wp]. *)
Definition created (doc_id : string) (entries : list segment) (filename : string)
  (wp : Sync.world) : Sync.world :=
  let title := title_of doc_lookup doc_id in
  let client_folder := client_of cfg doc_lookup doc_id in
  let filepath := path_join (dest_dir_of cfg doc_lookup doc_id) filename in
  let w := Sync.write_file wp filepath
             (Sync.build_content title (doc_of doc_lookup doc_id) entries) in
  let w := store w doc_id (Str.truthy client_folder) client_folder filename title in
  let w := Sync.set_counts w (S (Sync.new_count w)) (Sync.routed_count w)
             (Sync.updated_count w) in
  if Str.truthy client_folder
  then Sync.print w ("Synced -> " +:+ default "" client_folder +:+ "/call-notes/"
                     +:+ filename)
  else Sync.print w ("Synced -> inbox/" +:+ filename).

(** The reroute branch, once the old inbox file [old_file] is found. *)
Definition rerouted (doc_id : string) (entries : list segment) (filename : string)
  (old_file : string) (wp : Sync.world) : Sync.world :=
  let title := title_of doc_lookup doc_id in
  let client_folder := client_of cfg doc_lookup doc_id in
  let filepath := path_join (dest_dir_of cfg doc_lookup doc_id) filename in
  let w := Sync.write_file wp filepath
             (Sync.build_content title (doc_of doc_lookup doc_id) entries) in
  let w := Sync.remove_file w (path_join (Sync.INBOX_DIR cfg) old_file) in
  let w := store w doc_id true client_folder filename title in
  let w := Sync.set_counts w (Sync.new_count w) (S (Sync.routed_count w))
             (Sync.updated_count w) in
  Sync.print w ("Routed: " +:+ old_file +:+ " -> " +:+ default "" client_folder
                +:+ "/call-notes/" +:+ filename).

(** The rename branch, once the old file is found at [old_path]. *)
Definition renamed (doc_id : string) (entries : list segment) (filename : string)
  (was_routed : bool) (old_file old_path : string) (wp : Sync.world) : Sync.world :=
  let title := title_of doc_lookup doc_id in
  let client_folder := client_of cfg doc_lookup doc_id in
  let filepath := path_join (dest_dir_of cfg doc_lookup doc_id) filename in
  let w := Sync.write_file wp filepath
             (Sync.build_content title (doc_of doc_lookup doc_id) entries) in
  let w := if bool_decide (old_path ≠ filepath) then Sync.remove_file w old_path
           else w in
  let w := store w doc_id was_routed (if was_routed then client_folder else None)
             filename title in
  let w := Sync.set_counts w (Sync.new_count w) (Sync.routed_count w)
             (S (Sync.updated_count w)) in
  Sync.print w ("Updated: " +:+ old_file +:+ " -> " +:+ filename).

End StepNotions.

(** *** A concrete installation, used in the examples *)

Definition home_cfg : Sync.config :=
  {| Sync.INBOX_DIR := "/home/u/granola-transcripts/inbox";
     Sync.CLIENTS_DIR := "/home/u/granola-transcripts/clients";
     Sync.CLIENT_ROUTES := Sync.shipped_routes |}.

Definition march_2 (n : nat) : datetime :=
  {| strftime_ymd := "2024-03-02";
     isoformat := "2024-03-02T08:00:0" +:+ Str.of_nat n |}.

(** An ended meeting with a title and a start time. *)
Definition meeting (doc_id title start : string) : document :=
  {| d_id := Some doc_id; d_title := Some title; d_start_time := Some start;
     d_startTime := None; d_created_at := None; d_meeting_end_count := Some 2%Z;
     d_people := None; d_calendar_summary := None |}.

(** A ledger entry as an earlier run left it. *)
Definition synced (routed : bool) (client : option string) (file title : string)
  : Sync.entry :=
  {| Sync.e_synced_at := "2024-03-01T12:00:00"; Sync.e_routed := routed;
     Sync.e_client := client; Sync.e_file := Some file; Sync.e_title := Some title |}.

Definition inbox (file : string) : string :=
  path_join (Sync.INBOX_DIR home_cfg) file.



(** A transcript routed to Acme-Corp as "Acme sync", and two titles it may
    have now: one that still matches Acme-Corp, one that matches Internal. *)
Definition acme_path (file : string) : string :=
  path_join (Sync.call_notes_path home_cfg "Acme-Corp") file.

Definition routed_world : Sync.world :=
  Sync.start {[ "d2" := synced true (Some "Acme-Corp") "2024-03-01-Acme-sync.md"
                          "Acme sync" ]}
             {[ acme_path "2024-03-01-Acme-sync.md" := "old" ]} ∅ 0.

Definition kickoff_docs : gmap string document :=
  {[ "d2" := meeting "d2" "Acme kickoff" "2024-03-01T10:00:00Z" ]}.


(** *** Notions for two runs in a row *)






(** Two transcripts synced under one title on one day, so to one file; then
    both are retitled and a third transcript takes the old title. *)
Definition day : string := "2024-01-01T10:00:00Z".



Definition empty_world : Sync.world := Sync.start ∅ ∅ ∅ 0.




(** A cache holding the routed transcript of [routed_world] under its new
    title "Acme kickoff". *)
Definition kickoff_cache : cache_state :=
  {| transcripts := [ ("d2", words 60) ]; documents := DocsDict kickoff_docs |}.

(** *** Notions for the cache reader *)

(** The string a decoded outer object holds under the key [cache]. *)
Definition cache_field (data : Json.value) : option string :=
  match data with
  | Json.JObject members =>
      match Json.member "cache" members with
      | Some (Json.JString inner) => Some inner
      | _ => None
      end
  | _ => None
  end.

Definition is_object (v : Json.value) : Prop :=
  match v with Json.JObject _ => True | _ => False end.

(** The text of a cache file whose [cache] field is the string [inner]
    (a text without quotes or backslashes). *)
Definition cache_file (inner : string) : string :=
  "{" +:+ dq +:+ "cache" +:+ dq +:+ ": " +:+ dq +:+ inner +:+ dq +:+ "}".

(** A cache with a transcript too short to pass the completion filter, which
    an earlier run had nevertheless recorded. *)
Definition short_cache : cache_state :=
  {| transcripts := [ ("short", words 10); ("d2", words 60) ];
     documents := DocsDict (<["short" := meeting "short" "Quick chat" day]> kickoff_docs) |}.

Definition short_world : Sync.world :=
  Sync.start {[ "short" := synced false None "2024-01-01-Quick.md" "Quick" ]} ∅ ∅ 0.

(** *** Notions for the classifier and the file names *)

(** The search text before it is lowercased: the title, then a space and
    the people title when there is one. *)
Definition raw_search_text (title : option string) (people : option people_t)
  : string :=
  let t := default "" (Str.or_else title (Some "")) in
  match people with
  | Some (PeopleDict (Some people_title)) =>
      if Str.nonempty people_title then t +:+ " " +:+ people_title else t
  | _ => t
  end.

(** [kw] occurs in [text] when case is disregarded. *)
Definition ci_contains (kw text : string) : bool :=
  Str.contains (Str.lower kw) (Str.lower text).

(** Every keyword of the table is written in lowercase. *)
Definition lowercase_table (routes : list (list string * string)) : Prop :=
  Forall (fun r => Forall (fun kw => Str.lower kw = kw) r.1) routes.

(** The only whitespace of [s] is the space character. *)
Definition spaces_only (s : string) : bool :=
  Str.forallb (fun c => negb (Str.isspace c) || Ascii.eqb c " ") s.

(** A character allowed in a sanitized title. *)
Definition word_or_hyphen (c : ascii) : bool := Str.isword c || Ascii.eqb c "-".

(** *** Notions for the further properties *)

(** The start time [get_date_prefix] and [build_content] use: the first of
    [start_time], [startTime] and [created_at] that is a non-empty string,
    else the empty string. *)
Definition start_of (doc : document) : string :=
  default "" (Str.or_else (d_start_time doc)
               (Str.or_else (d_startTime doc)
                 (Str.or_else (d_created_at doc) (Some "")))).

(** The ids of the transcripts of the cache that pass the two tests at the
    head of the loop body. *)
Definition eligible_ids (dl : gmap string document)
  (items : list (string * list segment)) : gset string :=
  list_to_set (List.map fst (List.filter (eligible dl) items)).

(** A legacy ledger and a cache holding one of its transcripts, complete. *)
Definition legacy_world : Sync.world :=
  Sync.start (Sync.load_tracking (Sync.LegacyIds ["d2"; "gone"])) ∅ ∅ 0.

(** A document without any start time. *)
Definition undated_docs : gmap string document :=
  {[ "d3" := {| d_id := Some "d3"; d_title := Some "Acme kickoff";
                d_start_time := None; d_startTime := Some "";
                d_created_at := None; d_meeting_end_count := Some 1%Z;
                d_people := None; d_calendar_summary := None |} ]}.

(** A character [make_filename] may leave in a sanitized title: one the
    filter keeps, the space excepted. *)
Definition filename_char (c : ascii) : bool :=
  Sync.kept_char c && negb (Ascii.eqb c " ").

(** The trimmed text and the source tag the renderers read from a segment. *)
Definition text_of (e : segment) : string := Str.strip (default "" (s_text e)).

Definition source_of (e : segment) : string := default "unknown" (s_source e).

(** The segment is rendered: its trimmed text is not empty. *)
Definition nonblank (e : segment) : bool := Str.nonempty (text_of e).

(** The label the sync renderer gives a source. *)
Definition sync_label (source : string) : string :=
  if String.eqb source "microphone" then nl +:+ "**[You]** "
  else if String.eqb source "system" then nl +:+ "**[Other]** "
  else nl +:+ "**[" +:+ source +:+ "]** ".

(** Three segments of one speaker, the second blank. *)
Definition monologue : list segment :=
  [ {| s_text := Some " hello "; s_source := Some "microphone" |};
    {| s_text := Some "   "; s_source := Some "system" |};
    {| s_text := Some "again"; s_source := Some "microphone" |} ].

(** The transcripts of the listing whose sort key is [k]. *)
Definition with_key (k : string) (l : list Transcripts.listing)
  : list Transcripts.listing :=
  List.filter (fun t => String.eqb (Transcripts.sort_key t) k) l.

(** A cache of three transcripts, two of them started at the same time and
    one without a start time. *)
Definition tied_cache : cache_state :=
  {| transcripts := [ ("n", words 3); ("a", words 3); ("b", words 3) ];
     documents := DocsList
       [ {| d_id := Some "n"; d_title := Some "No date"; d_start_time := None;
            d_startTime := None; d_created_at := None;
            d_meeting_end_count := None; d_people := None;
            d_calendar_summary := None |};
         meeting "a" "First" day; meeting "b" "Second" day ] |}.




(** The path [export_all] writes a transcript to. *)
Definition export_path (export_dir : string) (t : Transcripts.listing) : string :=
  path_join export_dir (Transcripts.export_filename t).

(** An empty disk. *)
Definition empty_disk : Transcripts.disk :=
  {| Transcripts.files := ∅; Transcripts.dirs := ∅; Transcripts.stdout := [] |}.

(** Two transcripts of one title. *)
Definition same_title_cache : cache_state :=
  {| transcripts := [ ("w", words 3); ("x", words 5) ];
     documents := DocsList [ meeting "w" "Weekly sync" "2024-01-01T09:00:00Z";
                             meeting "x" "Weekly sync" "2024-02-01T09:00:00Z" ] |}.

Definition weekly_w : Transcripts.listing :=
  {| Transcripts.t_id := "w"; Transcripts.t_title := "Weekly sync";
     Transcripts.t_start_time := Some "2024-01-01T09:00:00Z";
     Transcripts.t_entries := words 3; Transcripts.t_word_count := 3 |}.

Definition weekly_x : Transcripts.listing :=
  {| Transcripts.t_id := "x"; Transcripts.t_title := "Weekly sync";
     Transcripts.t_start_time := Some "2024-02-01T09:00:00Z";
     Transcripts.t_entries := words 5; Transcripts.t_word_count := 5 |}.

(** Two transcripts whose documents are missing, hence without a start
    time. *)
Definition undated_cache : cache_state :=
  {| transcripts := [ ("p", words 3); ("q", words 4) ]; documents := DocsList [] |}.

(** * Properties *)

(** ** Sanity checks of the string operations *)

Example split_demo : Str.split "  a bc   d " = ["a"; "bc"; "d"].
Proof. reflexivity. Qed.

Example strip_demo : Str.strip "  a b  " = "a b".
Proof. reflexivity. Qed.

Example lower_demo : Str.lower "Acme Corp" = "acme corp".
Proof. reflexivity. Qed.

(** ** The completion filter *)

(** The source's word count is the plain sum over the segments: its special
    case for an empty list returns what the sum gives. *)
Lemma word_count_sum (entries : list segment) :
  word_count entries
  = list_sum (List.map (fun e => length (Str.split (default "" (s_text e)))) entries).
Proof. by destruct entries. Qed.

Lemma word_count_nil : word_count [] = 0.
Proof. reflexivity. Qed.

(** The tokens of [s.split()] are non-empty and free of whitespace, and
    together they hold the non-whitespace characters of [s] in order. *)
Lemma append_cons (x : ascii) (a b : string) :
  String x a +:+ b = String x (a +:+ b).
Proof. done. Qed.

Lemma append_nil_r (a : string) : a +:+ "" = a.
Proof. induction a as [|x a IH]; [done|]. by rewrite append_cons, IH. Qed.

Lemma append_char_assoc (a : string) (x : ascii) (b : string) :
  (a +:+ String x "") +:+ b = a +:+ String x b.
Proof. induction a as [|y a IH]; [done|]. by rewrite !append_cons, IH. Qed.

Lemma forallb_app_char (p : ascii -> bool) (s : string) (c : ascii) :
  Str.forallb p (s +:+ String c EmptyString) = Str.forallb p s && p c.
Proof.
  induction s as [|a s IH]; [simpl; by rewrite andb_true_r|].
  rewrite append_cons. simpl. by rewrite IH, andb_assoc.
Qed.

Lemma split_from_tokens (cur s : string) :
  Str.forallb (fun c => negb (Str.isspace c)) cur = true →
  Forall (fun t => t ≠ "" ∧ Str.forallb (fun c => negb (Str.isspace c)) t = true)
         (Str.split_from cur s).
Proof.
  revert cur. induction s as [|c s IH]; intros cur Hcur; simpl.
  - destruct cur; simpl; [constructor|]. by repeat constructor.
  - destruct (Str.isspace c) eqn:Hc.
    + destruct cur; simpl; [by apply IH|].
      constructor; [done|]. by apply IH.
    + apply IH. by rewrite forallb_app_char, Hcur, Hc.
Qed.

Lemma split_tokens (s : string) :
  Forall (fun t => t ≠ "" ∧ Str.forallb (fun c => negb (Str.isspace c)) t = true)
         (Str.split s).
Proof. by apply split_from_tokens. Qed.

Lemma join_empty_cons (a : string) (l : list string) :
  Str.join "" (a :: l) = a +:+ Str.join "" l.
Proof. destruct l; unfold Str.join; simpl; [by rewrite append_nil_r|done]. Qed.

Lemma split_from_concat (cur s : string) :
  Str.join "" (Str.split_from cur s)
  = cur +:+ Str.filter (fun c => negb (Str.isspace c)) s.
Proof.
  revert cur. induction s as [|c s IH]; intros cur; simpl.
  - destruct cur; [done|]. simpl. by rewrite join_empty_cons, !append_nil_r.
  - destruct (Str.isspace c); simpl.
    + destruct cur; simpl; [by rewrite IH|].
      by rewrite join_empty_cons, IH.
    + by rewrite IH, append_char_assoc.
Qed.

Lemma truthy_Some_iff (o : option string) :
  Str.truthy o = true ↔ ∃ t, o = Some t ∧ t ≠ "".
Proof.
  destruct o as [[|c t]|]; simpl; split; try done.
  - by intros (t & [= <-] & Ht).
  - intros _. by eexists.
  - by intros (t & ? & _).
Qed.

(** The three tests of [is_meeting_done], read as one condition. *)
Lemma is_meeting_done_true (doc : document) (entries : list segment) :
  Sync.is_meeting_done doc entries = true
  ↔ (∃ n, d_meeting_end_count doc = Some n ∧ (1 ≤ n)%Z)
    ∧ Str.truthy (d_title doc) = true
    ∧ 50 ≤ word_count entries.
Proof.
  unfold Sync.is_meeting_done.
  destruct (d_meeting_end_count doc) as [n|] eqn:Hn.
  - destruct (Z.eqb_spec n 0) as [->|Hn0]; simpl.
    + split; [done|]. intros ((m & [= <-] & Hm) & _). lia.
    + destruct (Z.ltb_spec n 1) as [Hlt|Hge]; simpl.
      * split; [done|]. intros ((m & [= <-] & Hm) & _). lia.
      * destruct (Str.truthy (d_title doc)); simpl.
        -- destruct (Nat.ltb_spec (word_count entries) 50) as [Hw|Hw].
           ++ split; [done|]. intros (_ & _ & ?). lia.
           ++ split; [|done]. intros _. split; [by exists n|]. done.
        -- split; [done|]. by intros (_ & ? & _).
  - split; [done|]. by intros ((m & ? & _) & _).
Qed.

(** C1.  [is_meeting_done] answers true exactly when [meeting_end_count] is
    present and at least 1, the title is present and not empty, and the word
    count (the sum of the numbers of whitespace-separated tokens of the
    segment texts, 0 for no segments) is at least 50; so it answers false
    whenever the word count is below 50, whatever the other fields hold. *)
Theorem is_meeting_done_iff (doc : document) (entries : list segment) :
  (Sync.is_meeting_done doc entries = true ↔
     (∃ n, d_meeting_end_count doc = Some n ∧ (1 ≤ n)%Z) ∧
     (∃ t, d_title doc = Some t ∧ t ≠ "") ∧
     50 ≤ list_sum (List.map (fun e => length (Str.split (default "" (s_text e))))
                             entries))
  ∧ (word_count entries < 50 → Sync.is_meeting_done doc entries = false).
Proof.
  rewrite <- word_count_sum, <- truthy_Some_iff. split.
  - apply is_meeting_done_true.
  - intros Hw. destruct (Sync.is_meeting_done doc entries) eqn:Hd; [|done].
    apply is_meeting_done_true in Hd as (_ & _ & ?). lia.
Qed.

(** A 49-word transcript of an ended, titled meeting is rejected. *)
Lemma is_meeting_done_iff_witness :
  Sync.is_meeting_done
    {| d_id := Some "d1"; d_title := Some "Acme Corp Sync";
       d_start_time := None; d_startTime := None; d_created_at := None;
       d_meeting_end_count := Some 2%Z; d_people := None;
       d_calendar_summary := None |}
    [ {| s_text := Some (Str.times "word " 49); s_source := Some "microphone" |} ]
  = false.
Proof.
  apply (proj2 (is_meeting_done_iff _ _)).
  vm_compute. lia.
Defined.

(** ** The classifier *)

Lemma any_keyword_true (keywords : list string) (text : string) :
  Sync.any_keyword keywords text = true
  ↔ ∃ kw, kw ∈ keywords ∧ Str.contains kw text = true.
Proof.
  induction keywords as [|kw rest IH]; simpl.
  - split; [done|]. intros (kw & Hin & _). by apply elem_of_nil in Hin.
  - destruct (Str.contains kw text) eqn:Hkw.
    + split; [|done]. intros _. exists kw. split; [left|done].
    + rewrite IH. split.
      * intros (k & Hin & Hk). exists k. split; [by right|done].
      * intros (k & Hin & Hk). apply elem_of_cons in Hin as [->|Hin].
        -- congruence.
        -- by exists k.
Qed.

(** The first entry, in table order, one of whose keywords occurs in the
    search text decides; without such an entry there is no folder. *)
Lemma first_route_Some (routes : list (list string * string)) (text folder : string) :
  Sync.first_route routes text = Some folder
  ↔ ∃ before keywords after,
      routes = before ++ (keywords, folder) :: after
      ∧ Forall (fun r => Sync.any_keyword r.1 text = false) before
      ∧ Sync.any_keyword keywords text = true.
Proof.
  induction routes as [|[kws f] rest IH]; simpl.
  - split; [done|]. intros (b & k & a & Heq & _). by destruct b.
  - destruct (Sync.any_keyword kws text) eqn:Hk.
    + split.
      * intros [= <-]. by exists [], kws, rest.
      * intros ([|[k0 f0] b] & k & a & Heq & Hb & Hm); simplify_eq/=; [done|].
        apply Forall_cons in Hb as [Hb _]. simpl in Hb. congruence.
    + rewrite IH. split.
      * intros (b & k & a & -> & Hb & Hm). exists ((kws, f) :: b), k, a.
        split; [done|]. split; [|done]. by constructor.
      * intros ([|[k0 f0] b] & k & a & Heq & Hb & Hm); simplify_eq/=.
        -- congruence.
        -- apply Forall_cons in Hb as [_ Hb]. by exists b, k, a.
Qed.

Lemma first_route_None (routes : list (list string * string)) (text : string) :
  Sync.first_route routes text = None
  ↔ Forall (fun r => Sync.any_keyword r.1 text = false) routes.
Proof.
  induction routes as [|[kws f] rest IH]; simpl; [done|].
  destruct (Sync.any_keyword kws text) eqn:Hk.
  - split; [done|]. intros [Hf _]%Forall_cons. simpl in Hf. congruence.
  - rewrite IH. split; [by constructor|]. by intros [_ ?]%Forall_cons.
Qed.

(** The precedence example of the specification. *)
Example match_client_precedence :
  let routes := [(["a"], "F1"); (["a"; "b"], "F2")] in
  Sync.match_client routes (Some "b") None = Some "F2"
  ∧ Sync.match_client routes (Some "a") None = Some "F1"
  ∧ Sync.match_client routes (Some "c") None = None.
Proof. done. Qed.

(** C3.  The search text is lowercased but the keywords are compared as they
    are written: with the one route [("Acme",): "Acme-Corp"], the title
    "Acme Sync" contains the keyword, literally and a fortiori without regard
    to case, and [match_client] still finds no folder. *)
Theorem match_client_misses_capitalised_keyword :
  let routes := [(["Acme"], "Acme-Corp")] in
  Str.contains "Acme" "Acme Sync" = true
  ∧ Str.contains (Str.lower "Acme") (Str.lower "Acme Sync") = true
  ∧ Sync.match_client routes (Some "Acme Sync") None = None.
Proof. done. Qed.

Lemma any_keyword_false (keywords : list string) (text : string) :
  Sync.any_keyword keywords text = false
  ↔ Forall (fun kw => Str.contains kw text = false) keywords.
Proof.
  induction keywords as [|kw rest IH]; simpl; [done|].
  destruct (Str.contains kw text) eqn:Hkw.
  - split; [done|]. intros [? _]%Forall_cons. congruence.
  - rewrite IH. split; [by constructor|]. by intros [_ ?]%Forall_cons.
Qed.

Lemma map_app (f : ascii -> ascii) (a b : string) :
  Str.map f (a +:+ b) = Str.map f a +:+ Str.map f b.
Proof. induction a as [|c a IH]; simpl; [done|]. by rewrite IH. Qed.

(** [match_client] searches the lowercased raw text. *)
Lemma search_text_lower (title : option string) (people : option people_t) :
  Sync.search_text_of title people = Str.lower (raw_search_text title people).
Proof.
  unfold Sync.search_text_of, raw_search_text, Str.lower.
  destruct people as [[[pt|]|]|]; try done.
  destruct (Str.nonempty pt); [|done]. by rewrite !map_app.
Qed.

(** On a table whose keywords are all lowercase [match_client] is what the
    specification says: the folder of the first entry, in table order, one of
    whose keywords occurs in the search text when case is disregarded. *)
Lemma match_client_lowercase_table (routes : list (list string * string))
  (title : option string) (people : option people_t) (folder : string) :
  lowercase_table routes →
  Sync.match_client routes title people = Some folder
  ↔ ∃ before keywords after,
      routes = before ++ (keywords, folder) :: after
      ∧ Forall (fun r => Forall (fun kw =>
                  ci_contains kw (raw_search_text title people) = false) r.1) before
      ∧ ∃ kw, kw ∈ keywords ∧ ci_contains kw (raw_search_text title people) = true.
Proof.
  intros Hlow. unfold Sync.match_client. rewrite search_text_lower, first_route_Some.
  unfold ci_contains.
  split; intros (b & k & a & -> & Hb & Hk); exists b, k, a; (split; [done|]);
    apply Forall_app in Hlow as [Hlb Hlk]; apply Forall_cons in Hlk as [Hlk _];
    simpl in Hlk.
  - split.
    + clear Hk. induction Hb as [|r b Hr Hb IH]; [constructor|].
      apply Forall_cons in Hlb as [Hlr Hlb]. constructor; [|by apply IH].
      apply any_keyword_false in Hr. clear IH.
      induction Hr as [|kw ks Hkw Hks IH]; [constructor|].
      apply Forall_cons in Hlr as [Hl Hlr]. constructor; [by rewrite Hl|by apply IH].
    + apply any_keyword_true in Hk as (kw & Hin & Hkw). exists kw. split; [done|].
      rewrite Forall_forall in Hlk. by rewrite (Hlk kw Hin).
  - split.
    + clear Hk. induction Hb as [|r b Hr Hb IH]; [constructor|].
      apply Forall_cons in Hlb as [Hlr Hlb]. constructor; [|by apply IH].
      apply any_keyword_false. clear IH.
      induction Hr as [|kw ks Hkw Hks IH]; [constructor|].
      apply Forall_cons in Hlr as [Hl Hlr]. constructor; [by rewrite <- Hl|by apply IH].
    + destruct Hk as (kw & Hin & Hkw). apply any_keyword_true. exists kw.
      split; [done|]. rewrite Forall_forall in Hlk. by rewrite <- (Hlk kw Hin).
Qed.

(** ** File names *)

Example make_filename_spec_example :
  Sync.make_filename "2024-03-01" "Q3 Planning: Acme & Co!!"
  = "2024-03-01-Q3-Planning-Acme-Co.md".
Proof. done. Qed.

(** C5.  Only the space character is turned into a hyphen: a tab inside the
    title passes the character filter (it is whitespace), is not at an end
    of the title, and reaches the file name. *)
Theorem make_filename_keeps_tab :
  Sync.make_filename "2024-03-01" ("a" +:+ tab +:+ "b")
  = "2024-03-01-a" +:+ tab +:+ "b.md"
  ∧ Str.forallb (fun c => Str.isword c || Ascii.eqb c "-")
      (Sync.safe_title ("a" +:+ tab +:+ "b")) = false
  ∧ Str.forallb (fun c => negb (Str.isspace c))
      (Sync.safe_title ("a" +:+ tab +:+ "b")) = false.
Proof. done. Qed.

(** For a title whose only whitespace is the space character the file name
    is as the specification says: the sanitized title holds word characters
    and hyphens only, no two hyphens in a row, and at most 60 characters. *)

Lemma forallb_take (p : ascii -> bool) (n : nat) (s : string) :
  Str.forallb p s = true → Str.forallb p (Str.take n s) = true.
Proof.
  revert s. induction n as [|n IH]; intros [|c s]; simpl; try done.
  intros [Hc Hs]%andb_true_iff. rewrite Hc. by apply IH.
Qed.

Lemma forallb_lstrip (p : ascii -> bool) (s : string) :
  Str.forallb p s = true → Str.forallb p (Str.lstrip s) = true.
Proof.
  induction s as [|c s IH]; simpl; [done|].
  intros [Hc Hs]%andb_true_iff. case_match; [by apply IH|].
  simpl. by rewrite Hc.
Qed.

Lemma forallb_rstrip (p : ascii -> bool) (s : string) :
  Str.forallb p s = true → Str.forallb p (Str.rstrip s) = true.
Proof.
  induction s as [|c s IH]; simpl; [done|].
  intros [Hc Hs]%andb_true_iff. specialize (IH Hs).
  destruct (Str.rstrip s) as [|c' r]; [case_match; simpl; by rewrite ?Hc|].
  simpl in *. by rewrite Hc.
Qed.

Lemma forallb_collapse (p : ascii -> bool) (s : string) :
  Str.forallb p s = true → Str.forallb p (Sync.collapse_hyphens s) = true.
Proof.
  induction s as [|c s IH]; [done|].
  intros [Hc Hs]%andb_true_iff. specialize (IH Hs). simpl.
  destruct (Ascii.eqb c "-"); [|simpl; by rewrite Hc].
  destruct s as [|c' s']; [simpl; by rewrite Hc|].
  destruct (Ascii.eqb c' "-"); [done|]. simpl in *. by rewrite Hc.
Qed.

Lemma length_take (n : nat) (s : string) : String.length (Str.take n s) ≤ n.
Proof.
  revert s. induction n as [|n IH]; intros [|c s]; simpl; try lia.
  specialize (IH s). lia.
Qed.

Lemma length_lstrip (s : string) : String.length (Str.lstrip s) ≤ String.length s.
Proof. induction s as [|c s IH]; simpl; [done|]. case_match; simpl; lia. Qed.

Lemma length_rstrip (s : string) : String.length (Str.rstrip s) ≤ String.length s.
Proof.
  induction s as [|c s IH]; simpl; [done|].
  destruct (Str.rstrip s); [case_match|]; simpl in *; lia.
Qed.

Lemma length_map (f : ascii -> ascii) (s : string) :
  String.length (Str.map f s) = String.length s.
Proof. induction s as [|c s IH]; simpl; [done|]. by rewrite IH. Qed.

Lemma length_collapse (s : string) :
  String.length (Sync.collapse_hyphens s) ≤ String.length s.
Proof.
  induction s as [|c s IH]; [done|]. simpl.
  destruct (Ascii.eqb c "-"); [|simpl; lia].
  destruct s as [|c' s']; [simpl; lia|].
  destruct (Ascii.eqb c' "-"); simpl in *; lia.
Qed.

Lemma collapse_cons (c : ascii) (s : string) :
  Sync.collapse_hyphens (String c s)
  = if Ascii.eqb c "-"
    then match s with
         | String c' _ =>
             if Ascii.eqb c' "-" then Sync.collapse_hyphens s
             else String c (Sync.collapse_hyphens s)
         | EmptyString => String c EmptyString
         end
    else String c (Sync.collapse_hyphens s).
Proof. done. Qed.

(** Collapsing keeps the first character. *)
Lemma collapse_head (c : ascii) (s : string) :
  ∃ r, Sync.collapse_hyphens (String c s) = String c r.
Proof.
  revert c. induction s as [|c' s IH]; intros c; rewrite collapse_cons.
  - destruct (Ascii.eqb c "-"); by eexists.
  - destruct (Ascii.eqb c "-") eqn:Hc; [|by eexists].
    destruct (Ascii.eqb c' "-") eqn:Hc'; [|by eexists].
    apply Ascii.eqb_eq in Hc, Hc'. subst. apply IH.
Qed.

Lemma contains_cons (sub : string) (c : ascii) (s : string) :
  Str.contains sub (String c s)
  = String.prefix sub (String c s) || Str.contains sub s.
Proof. done. Qed.

Lemma prefix_cons (a b : ascii) (s1 s2 : string) :
  String.prefix (String a s1) (String b s2) = Ascii.eqb a b && String.prefix s1 s2.
Proof.
  simpl. destruct (ascii_dec a b) as [->|Hne].
  - by rewrite Ascii.eqb_refl.
  - by apply Ascii.eqb_neq in Hne as ->.
Qed.

Lemma prefix_double_hyphen (c c' : ascii) (r : string) :
  String.prefix "--" (String c (String c' r)) = Ascii.eqb c "-" && Ascii.eqb c' "-".
Proof.
  rewrite !prefix_cons, (Ascii.eqb_sym c), (Ascii.eqb_sym c').
  destruct r; simpl; by rewrite andb_true_r.
Qed.

Lemma collapse_no_double_hyphen (s : string) :
  Str.contains "--" (Sync.collapse_hyphens s) = false.
Proof.
  induction s as [|c s IH]; [done|].
  rewrite collapse_cons.
  destruct (Ascii.eqb c "-") eqn:Hc.
  - destruct s as [|c' s']; [by apply Ascii.eqb_eq in Hc as ->|].
    destruct (Ascii.eqb c' "-") eqn:Hc'; [done|].
    destruct (collapse_head c' s') as [r Hr]. rewrite Hr in *.
    rewrite contains_cons, IH, orb_false_r, prefix_double_hyphen, Hc'.
    apply andb_false_r.
  - destruct (Sync.collapse_hyphens s) as [|c' r] eqn:Hr.
    + rewrite contains_cons, prefix_cons, (Ascii.eqb_sym "-" c), Hc. done.
    + by rewrite contains_cons, IH, orb_false_r, prefix_double_hyphen, Hc.
Qed.

Lemma safe_title_clean (title : string) :
  spaces_only title = true →
  Str.forallb word_or_hyphen (Sync.safe_title title) = true
  ∧ Str.contains "--" (Sync.safe_title title) = false
  ∧ String.length (Sync.safe_title title) ≤ 60.
Proof.
  intros Hsp. unfold Sync.safe_title. split; [|split].
  - apply forallb_collapse.
    assert (Hkept : Str.forallb (fun c => word_or_hyphen c || Ascii.eqb c " ")
                      (Str.filter Sync.kept_char title) = true).
    { unfold spaces_only in Hsp. induction title as [|c t IH]; [done|].
      simpl in *. apply andb_true_iff in Hsp as [Hc Ht].
      destruct (Sync.kept_char c) eqn:Hk; [|by apply IH]. simpl.
      rewrite (IH Ht), andb_true_r. unfold Sync.kept_char, word_or_hyphen in *.
      destruct (Str.isword c), (Ascii.eqb c "-"), (Str.isspace c); simpl in *;
        try done. }
    unfold Str.strip.
    pose proof (forallb_rstrip _ _ (forallb_lstrip _ _ (forallb_take _ 60 _ Hkept)))
      as Hs.
    revert Hs. generalize (Str.rstrip (Str.lstrip (Str.take 60 (Str.filter Sync.kept_char title)))).
    intros s. unfold Str.replace_char. induction s as [|c s IH]; [done|].
    simpl. intros [Hc Hs]%andb_true_iff. rewrite (IH Hs), andb_true_r.
    destruct (Ascii.eqb c " ") eqn:Hsp'; [done|]. by rewrite orb_false_r in Hc.
  - apply collapse_no_double_hyphen.
  - etrans; [apply length_collapse|]. unfold Str.replace_char. rewrite length_map.
    unfold Str.strip. etrans; [apply length_rstrip|].
    etrans; [apply length_lstrip|]. apply length_take.
Qed.

(** ** The two renderers *)

Lemma nonempty_false (s : string) : Str.nonempty s = false ↔ s = "".
Proof. by destruct s. Qed.











(** Nor do they agree on a source that is neither microphone nor system:
    only the sync renderer labels it. *)
Example format_transcript_other_source :
  let entries := [ {| s_text := Some "hi"; s_source := Some "phone" |} ] in
  Sync.format_transcript entries = nl +:+ "**[phone]**  hi"
  ∧ Transcripts.format_transcript entries = "hi".
Proof. done. Qed.

(** ** Looking a transcript up in the query tool *)

Lemma string_leb_total_false (a b : string) :
  String.leb a b = false → String.leb b a = true.
Proof. destruct (String.leb_total a b) as [H|H]; congruence. Qed.

Lemma insert_desc_perm (x : Transcripts.listing) (l : list Transcripts.listing) :
  Transcripts.insert_desc x l ≡ₚ x :: l.
Proof.
  induction l as [|y l IH]; simpl; [done|].
  case_match; [done|]. rewrite IH. apply Permutation_swap.
Qed.

Lemma sorted_desc_perm (l : list Transcripts.listing) :
  Transcripts.sorted_desc l ≡ₚ l.
Proof.
  induction l as [|x l IH]; simpl; [done|].
  by rewrite insert_desc_perm, IH.
Qed.

Lemma insert_desc_hdrel (a x : Transcripts.listing) (l : list Transcripts.listing) :
  later_first a x → HdRel later_first a l →
  HdRel later_first a (Transcripts.insert_desc x l).
Proof.
  intros Hax Hal. destruct l as [|y l]; simpl.
  - by constructor.
  - case_match; constructor; [done|]. by inversion Hal.
Qed.

Lemma insert_desc_sorted (x : Transcripts.listing) (l : list Transcripts.listing) :
  Sorted later_first l → Sorted later_first (Transcripts.insert_desc x l).
Proof.
  induction 1 as [|y l Hl IH Hy]; simpl.
  - by repeat constructor.
  - destruct (String.leb (Transcripts.sort_key y) (Transcripts.sort_key x)) eqn:Hle.
    + constructor; [by constructor|]. by constructor.
    + constructor; [done|].
      apply insert_desc_hdrel; [|done].
      by apply string_leb_total_false.
Qed.

Lemma sorted_desc_sorted (l : list Transcripts.listing) :
  Sorted later_first (Transcripts.sorted_desc l).
Proof.
  induction l as [|x l IH]; simpl; [constructor|]. by apply insert_desc_sorted.
Qed.

(** The loop stops at the first element that passes its test. *)
Lemma show_loop_first (doc_id : string) (ts : list Transcripts.listing) :
  (∃ before t after,
      ts = before ++ t :: after
      ∧ Forall (fun x => Transcripts.matches doc_id x = false) before
      ∧ Transcripts.matches doc_id t = true
      ∧ Transcripts.show_loop doc_id ts = Transcripts.show_lines t)
  ∨ (Forall (fun x => Transcripts.matches doc_id x = false) ts
     ∧ Transcripts.show_loop doc_id ts = ["Transcript not found: " +:+ doc_id]).
Proof.
  induction ts as [|t ts IH]; simpl.
  - right. by split.
  - destruct (Transcripts.matches doc_id t) eqn:Hm.
    + left. by exists [], t, ts.
    + destruct IH as [(b & t' & a & -> & Hb & Ht & Hs)|[Hall Hs]].
      * left. exists (t :: b), t', a. repeat split; try done. by constructor.
      * right. split; [by constructor|done].
Qed.

Lemma matches_iff (doc_id : string) (t : Transcripts.listing) :
  Transcripts.matches doc_id t = true
  ↔ Transcripts.t_id t = doc_id
    ∨ Str.contains (Str.lower doc_id) (Str.lower (Transcripts.t_title t)) = true.
Proof.
  unfold Transcripts.matches. rewrite orb_true_iff, String.eqb_eq. done.
Qed.

(** C9.  [show_transcript] walks the transcripts latest start time first and
    prints the first one whose id is the query or whose title contains the
    query without regard to case; the two tests are one disjunction, so an
    exact id has no precedence: in [shadow_cache] the query "abc" is the id
    of a transcript, and what is printed is the later transcript "zzz",
    whose title mentions it. *)
Theorem show_transcript_first_match :
  (∀ (state : cache_state) (doc_id : string),
     let ts := Transcripts.get_transcripts_with_docs state in
     Sorted later_first ts
     ∧ ts ≡ₚ Transcripts.collect (doc_lookup_of (documents state)) (transcripts state)
     ∧ ((∃ before t after,
            ts = before ++ t :: after
            ∧ Forall (fun x => Transcripts.t_id x ≠ doc_id
                        ∧ Str.contains (Str.lower doc_id)
                            (Str.lower (Transcripts.t_title x)) = false) before
            ∧ (Transcripts.t_id t = doc_id
               ∨ Str.contains (Str.lower doc_id)
                   (Str.lower (Transcripts.t_title t)) = true)
            ∧ Transcripts.show_transcript state doc_id = Transcripts.show_lines t)
        ∨ (Forall (fun x => Transcripts.t_id x ≠ doc_id
                      ∧ Str.contains (Str.lower doc_id)
                          (Str.lower (Transcripts.t_title x)) = false) ts
           ∧ Transcripts.show_transcript state doc_id
             = ["Transcript not found: " +:+ doc_id])))
  ∧ (∃ t u,
       Transcripts.get_transcripts_with_docs shadow_cache = [u; t]
       ∧ Transcripts.t_id t = "abc"
       ∧ Transcripts.t_id u = "zzz"
       ∧ Transcripts.show_transcript shadow_cache "abc" = Transcripts.show_lines u
       ∧ Transcripts.show_lines u ≠ Transcripts.show_lines t).
Proof.
  assert (Hno : ∀ q (l : list Transcripts.listing),
             Forall (fun x => Transcripts.matches q x = false) l →
             Forall (fun x => Transcripts.t_id x ≠ q
                       ∧ Str.contains (Str.lower q)
                           (Str.lower (Transcripts.t_title x)) = false) l).
  { intros q l Hl. eapply Forall_impl; [exact Hl|]. intros x Hx.
    unfold Transcripts.matches in Hx. apply orb_false_iff in Hx as [Hid Hc].
    split; [|done]. by apply String.eqb_neq. }
  split.
  - intros state doc_id ts. split; [apply sorted_desc_sorted|].
    split; [apply sorted_desc_perm|].
    unfold Transcripts.show_transcript. fold ts.
    destruct (show_loop_first doc_id ts) as [(b & t & a & Hts & Hb & Ht & Hs)|[Hall Hs]].
    + left. exists b, t, a. split; [done|]. split; [by apply Hno|].
      split; [by apply matches_iff|done].
    + right. split; [by apply Hno|done].
  - eexists _, _. split; [vm_compute; reflexivity|]. vm_compute. done.
Qed.

(** ** One step of the sync loop *)

Section StepFacts.

Variable cfg : Sync.config.
Variable now : nat -> datetime.
Variable dl : gmap string document.

Local Abbreviation step := (Sync.sync_one cfg now dl).

(** A transcript that fails one of the two tests at the head of the loop body
    is skipped: the world is as it was. *)
Lemma step_skip (w : Sync.world) (item : string * list segment) :
  eligible dl item = false → step w item = w.
Proof.
  destruct item as [doc_id [|e es]]; [done|].
  unfold eligible, doc_of, Sync.sync_one. simpl. intros ->. done.
Qed.

(** Reading the date prefix touches nothing but the clock. *)
Lemma get_date_prefix_frame (doc : document) (w : Sync.world) :
  let w1 := (Sync.get_date_prefix now doc w).2 in
  Sync.tracking w1 = Sync.tracking w ∧ Sync.files w1 = Sync.files w
  ∧ Sync.dirs w1 = Sync.dirs w ∧ Sync.new_count w1 = Sync.new_count w
  ∧ Sync.routed_count w1 = Sync.routed_count w
  ∧ Sync.updated_count w1 = Sync.updated_count w
  ∧ Sync.stdout w1 = Sync.stdout w.
Proof. unfold Sync.get_date_prefix. by case_match. Qed.

(** The prepared world differs from the world before in its clock and in
    the client's directory, which now exists. *)
Lemma prepared_frame (doc_id : string) (w : Sync.world) :
  let wp := prepared cfg now dl doc_id w in
  Sync.tracking wp = Sync.tracking w ∧ Sync.files wp = Sync.files w
  ∧ Sync.dirs wp
    = (if Str.truthy (client_of cfg dl doc_id)
       then {[Sync.call_notes_path cfg (default "" (client_of cfg dl doc_id))]}
              ∪ Sync.dirs w
       else Sync.dirs w)
  ∧ Sync.new_count wp = Sync.new_count w
  ∧ Sync.routed_count wp = Sync.routed_count w
  ∧ Sync.updated_count wp = Sync.updated_count w
  ∧ Sync.stdout wp = Sync.stdout w.
Proof.
  unfold prepared.
  destruct (get_date_prefix_frame (doc_of dl doc_id) w) as (?&?&?&?&?&?&?).
  case_match; simpl; repeat split; congruence.
Qed.

(** The loop body for a transcript that passes the tests, read off the
    prepared world. *)
Lemma step_eligible (w : Sync.world) (doc_id : string) (es : list segment) :
  eligible dl (doc_id, es) = true →
  let wp := prepared cfg now dl doc_id w in
  let filename := filename_of now dl doc_id w in
  step w (doc_id, es) =
  match Sync.tracking w !! doc_id with
  | None => created cfg now dl doc_id es filename wp
  | Some tracked =>
      match probed_path cfg dl (Sync.tracking w) doc_id with
      | None => wp
      | Some old_path =>
          if Sync.path_exists w old_path then
            if negb (Sync.e_routed tracked) && Str.truthy (client_of cfg dl doc_id)
            then rerouted cfg now dl doc_id es filename
                   (default "" (Sync.e_file tracked)) wp
            else renamed cfg now dl doc_id es filename (Sync.e_routed tracked)
                   (default "" (Sync.e_file tracked)) old_path wp
          else wp
      end
  end.
Proof.
  intros Hel wp filename. subst wp filename.
  destruct (prepared_frame doc_id w) as (Htr & Hfi & _).
  revert Htr Hfi.
  unfold prepared, filename_of, date_prefix_of, probed_path, created, rerouted,
    renamed, store, dest_dir_of, client_of, title_of.
  unfold eligible in Hel. simpl in Hel. destruct es as [|e0 es]; [done|].
  unfold Sync.sync_one, Sync.get_client_call_notes_dir, Sync.fresh_entry,
    Sync.datetime_now, Sync.path_exists.
  fold (doc_of dl doc_id). rewrite Hel. simpl negb. cbv iota.
  destruct (Sync.get_date_prefix now (doc_of dl doc_id) w) as [dp w1].
  cbn [fst snd].
  set (title := default "Untitled Meeting" (d_title (doc_of dl doc_id))).
  set (cf := Sync.match_client (Sync.CLIENT_ROUTES cfg) (Some title)
               (d_people (doc_of dl doc_id))).
  destruct (Str.truthy cf) eqn:Hcf; cbn [Sync.makedirs Sync.set_dirs Sync.tracking Sync.files];
    intros Htr Hfi; rewrite Htr, Hfi;
    (destruct (Sync.tracking w !! doc_id) as [tracked|]; [|reflexivity]);
    rewrite ?andb_true_r, ?andb_false_r;
    destruct (Sync.e_routed tracked); cbn [negb andb];
    destruct (Str.truthy (Sync.e_file tracked));
    try destruct (bool_decide (Sync.e_title tracked ≠ Some title));
    cbn [andb]; try reflexivity;
    repeat case_match; reflexivity.
Qed.

(** [is_meeting_done] refuses an empty segment list, so the first test of the
    loop body is subsumed by the second. *)
Lemma is_meeting_done_nonempty (doc : document) (es : list segment) :
  Sync.is_meeting_done doc es = true → es ≠ [].
Proof.
  intros Hd ->. apply is_meeting_done_true in Hd as (_ & _ & Hw).
  rewrite word_count_nil in Hw. lia.
Qed.

Lemma eligible_iff (doc_id : string) (es : list segment) :
  eligible dl (doc_id, es) = true ↔ Sync.is_meeting_done (doc_of dl doc_id) es = true.
Proof.
  unfold eligible. simpl. destruct es; [|done].
  split; [done|]. by intros ?%is_meeting_done_nonempty.
Qed.

(** A transcript that passes has a title of its own: the default of
    [doc.get('title', 'Untitled Meeting')] is not used. *)
Lemma eligible_title (doc_id : string) (es : list segment) :
  eligible dl (doc_id, es) = true →
  ∃ t, d_title (doc_of dl doc_id) = Some t ∧ t ≠ "" ∧ title_of dl doc_id = t.
Proof.
  intros Hel%eligible_iff.
  apply is_meeting_done_true in Hel as (_ & (t & Ht & Hne)%truthy_Some_iff & _).
  exists t. unfold title_of. by rewrite Ht.
Qed.

(** *** What the three writing branches leave behind *)

Lemma created_tracking doc_id es filename wp :
  Sync.tracking (created cfg now dl doc_id es filename wp)
  = <[doc_id := {| Sync.e_synced_at := isoformat (now (Sync.tick wp));
                   Sync.e_routed := Str.truthy (client_of cfg dl doc_id);
                   Sync.e_client := client_of cfg dl doc_id;
                   Sync.e_file := Some filename;
                   Sync.e_title := Some (title_of dl doc_id) |}]> (Sync.tracking wp).
Proof. unfold created. by case_match. Qed.

Lemma created_files doc_id es filename wp :
  Sync.files (created cfg now dl doc_id es filename wp)
  = <[path_join (dest_dir_of cfg dl doc_id) filename
      := Sync.build_content (title_of dl doc_id) (doc_of dl doc_id) es]> (Sync.files wp).
Proof. unfold created. by case_match. Qed.


Lemma created_counts doc_id es filename wp :
  let w := created cfg now dl doc_id es filename wp in
  Sync.new_count w = S (Sync.new_count wp)
  ∧ Sync.routed_count w = Sync.routed_count wp
  ∧ Sync.updated_count w = Sync.updated_count wp.
Proof. unfold created. by case_match. Qed.

Lemma rerouted_tracking doc_id es filename old_file wp :
  Sync.tracking (rerouted cfg now dl doc_id es filename old_file wp)
  = <[doc_id := {| Sync.e_synced_at := isoformat (now (Sync.tick wp));
                   Sync.e_routed := true;
                   Sync.e_client := client_of cfg dl doc_id;
                   Sync.e_file := Some filename;
                   Sync.e_title := Some (title_of dl doc_id) |}]> (Sync.tracking wp).
Proof. done. Qed.

Lemma rerouted_files doc_id es filename old_file wp :
  Sync.files (rerouted cfg now dl doc_id es filename old_file wp)
  = delete (path_join (Sync.INBOX_DIR cfg) old_file)
      (<[path_join (dest_dir_of cfg dl doc_id) filename
         := Sync.build_content (title_of dl doc_id) (doc_of dl doc_id) es]>
         (Sync.files wp)).
Proof. done. Qed.


Lemma renamed_tracking doc_id es filename was_routed old_file old_path wp :
  Sync.tracking (renamed cfg now dl doc_id es filename was_routed old_file old_path wp)
  = <[doc_id := {| Sync.e_synced_at := isoformat (now (Sync.tick wp));
                   Sync.e_routed := was_routed;
                   Sync.e_client := if was_routed then client_of cfg dl doc_id else None;
                   Sync.e_file := Some filename;
                   Sync.e_title := Some (title_of dl doc_id) |}]> (Sync.tracking wp).
Proof. unfold renamed. by case_match. Qed.

Lemma renamed_files doc_id es filename was_routed old_file old_path wp :
  Sync.files (renamed cfg now dl doc_id es filename was_routed old_file old_path wp)
  = (if bool_decide (old_path ≠ path_join (dest_dir_of cfg dl doc_id) filename)
     then delete old_path else id)
      (<[path_join (dest_dir_of cfg dl doc_id) filename
         := Sync.build_content (title_of dl doc_id) (doc_of dl doc_id) es]>
         (Sync.files wp)).
Proof. unfold renamed. by case_match. Qed.


(** The ledger after a step: as before, or with the entry of the transcript
    replaced by one that holds its current title. *)
Lemma step_tracking (w : Sync.world) (doc_id : string) (es : list segment) :
  Sync.tracking (step w (doc_id, es)) = Sync.tracking w
  ∨ (eligible dl (doc_id, es) = true
     ∧ ∃ e, Sync.tracking (step w (doc_id, es)) = <[doc_id := e]> (Sync.tracking w)
            ∧ Sync.e_title e = Some (title_of dl doc_id)).
Proof.
  destruct (eligible dl (doc_id, es)) eqn:Hel; [|left; by rewrite step_skip].
  rewrite (step_eligible _ _ _ Hel).
  destruct (prepared_frame doc_id w) as (Htr & _).
  repeat case_match; auto; right; (split; [done|]); eexists;
    rewrite ?created_tracking, ?rerouted_tracking, ?renamed_tracking, Htr; done.
Qed.

(** The files after a step: what is there was there before, or is the
    transcript rendered under its current title. *)
Lemma step_files (w : Sync.world) (doc_id : string) (es : list segment)
  (p c : string) :
  Sync.files (step w (doc_id, es)) !! p = Some c →
  Sync.files w !! p = Some c
  ∨ c = Sync.build_content (title_of dl doc_id) (doc_of dl doc_id) es.
Proof.
  destruct (eligible dl (doc_id, es)) eqn:Hel; [|rewrite step_skip; auto].
  rewrite (step_eligible _ _ _ Hel).
  destruct (prepared_frame doc_id w) as (_ & Hfi & _).
  repeat case_match;
    rewrite ?created_files, ?rerouted_files, ?renamed_files, Hfi; auto;
    repeat case_match; unfold id;
    intros Hp; repeat (apply lookup_delete_Some in Hp as [_ Hp]);
    apply lookup_insert_Some in Hp as [[_ <-]|[_ Hp]]; auto.
Qed.


End StepFacts.

(** ** A whole run *)

Section RunFacts.

Variable cfg : Sync.config.
Variable now : nat -> datetime.
Variable dl : gmap string document.

Local Abbreviation step := (Sync.sync_one cfg now dl).

(** The loop leaves the entry of an id alone when every transcript of the
    cache with that id is skipped. *)
Lemma loop_tracking_stale (items : list (string * list segment)) (w : Sync.world)
  (doc_id : string) :
  Forall (fun item => item.1 = doc_id → eligible dl item = false) items →
  Sync.tracking (fold_left step items w) !! doc_id = Sync.tracking w !! doc_id.
Proof.
  revert w. induction items as [|[i es] items IH]; intros w Hall; [done|].
  apply Forall_cons in Hall as [Hi Hall]. simpl. rewrite (IH _ Hall).
  destruct (decide (i = doc_id)) as [->|Hne].
  - by rewrite step_skip by auto.
  - destruct (step_tracking cfg now dl w i es) as [->|(_ & e & -> & _)]; [done|].
    by rewrite lookup_insert_ne.
Qed.

(** The loop removes no entry. *)
Lemma loop_tracking_mono (items : list (string * list segment)) (w : Sync.world)
  (k : string) :
  is_Some (Sync.tracking w !! k) →
  is_Some (Sync.tracking (fold_left step items w) !! k).
Proof.
  revert w. induction items as [|[i es] items IH]; intros w Hk; [done|].
  simpl. apply IH.
  destruct (step_tracking cfg now dl w i es) as [->|(_ & e & -> & _)]; [done|].
  rewrite lookup_insert. case_decide; [by eexists|done].
Qed.

End RunFacts.

(** The summary only prints. *)
Lemma print_summary_frame (w : Sync.world) :
  let w' := Sync.print_summary w in
  Sync.tracking w' = Sync.tracking w ∧ Sync.files w' = Sync.files w
  ∧ Sync.dirs w' = Sync.dirs w ∧ Sync.new_count w' = Sync.new_count w
  ∧ Sync.routed_count w' = Sync.routed_count w
  ∧ Sync.updated_count w' = Sync.updated_count w.
Proof. unfold Sync.print_summary. by case_match. Qed.

(** C8.  When every transcript of the cache that carries the id of a ledger
    entry is skipped (the id is absent from the cache, its segment list is
    empty, or [is_meeting_done] fails), the run leaves the entry as it was,
    and the loop body for that id changes nothing at all, so it writes or
    deletes no file; and no run removes an entry from the ledger. *)
Theorem stale_entry_untouched (cfg : Sync.config) (now : nat -> datetime)
  (state : cache_state) (w0 : Sync.world) (doc_id : string) :
  Forall (fun item =>
            item.1 = doc_id →
            item.2 = []
            ∨ Sync.is_meeting_done (doc_of (doc_lookup_of (documents state)) doc_id)
                item.2 = false)
         (transcripts state) →
  Sync.tracking (Sync.sync_transcripts cfg now state w0) !! doc_id
  = Sync.tracking w0 !! doc_id
  ∧ (∀ w es, (doc_id, es) ∈ transcripts state →
       Sync.sync_one cfg now (doc_lookup_of (documents state)) w (doc_id, es) = w)
  ∧ (∀ k, is_Some (Sync.tracking w0 !! k) →
       is_Some (Sync.tracking (Sync.sync_transcripts cfg now state w0) !! k)).
Proof.
  intros Hall.
  assert (Hel : Forall (fun item => item.1 = doc_id →
                          eligible (doc_lookup_of (documents state)) item = false)
                  (transcripts state)).
  { eapply Forall_impl; [exact Hall|]. intros [i es] H Hi. simpl in *. subst i.
    destruct (H eq_refl) as [->|Hd]; [done|].
    destruct (eligible _ _) eqn:He; [|done].
    apply eligible_iff in He. congruence. }
  unfold Sync.sync_transcripts.
  destruct (print_summary_frame
              (fold_left (Sync.sync_one cfg now (doc_lookup_of (documents state)))
                 (transcripts state)
                 (Sync.start (Sync.tracking (Sync.makedirs w0 (Sync.INBOX_DIR cfg)))
                    (Sync.files (Sync.makedirs w0 (Sync.INBOX_DIR cfg)))
                    (Sync.dirs (Sync.makedirs w0 (Sync.INBOX_DIR cfg)))
                    (Sync.tick (Sync.makedirs w0 (Sync.INBOX_DIR cfg))))))
    as (Htr & _).
  cbv zeta. rewrite Htr. split; [|split].
  - by rewrite loop_tracking_stale.
  - intros w es Hin. apply step_skip.
    rewrite Forall_forall in Hel. by apply (Hel (doc_id, es)).
  - intros k Hk. by apply loop_tracking_mono.
Qed.

(** C10.  A transcript that passed [is_meeting_done] has a title of its own,
    so [doc.get('title', 'Untitled Meeting')] is that title; the ledger entry
    the loop body stores for it holds that title, and every file the loop
    body leaves that was not there before is the transcript rendered under
    that title. *)
Theorem sync_uses_own_title (cfg : Sync.config) (now : nat -> datetime)
  (dl : gmap string document) (w : Sync.world) (doc_id : string)
  (es : list segment) :
  Sync.is_meeting_done (doc_of dl doc_id) es = true →
  ∃ t, d_title (doc_of dl doc_id) = Some t ∧ t ≠ ""
       ∧ default "Untitled Meeting" (d_title (doc_of dl doc_id)) = t
       ∧ (let w' := Sync.sync_one cfg now dl w (doc_id, es) in
          (Sync.tracking w' = Sync.tracking w
           ∨ ∃ e, Sync.tracking w' = <[doc_id := e]> (Sync.tracking w)
                  ∧ Sync.e_title e = Some t)
          ∧ (∀ p c, Sync.files w' !! p = Some c →
               Sync.files w !! p = Some c
               ∨ c = Sync.build_content t (doc_of dl doc_id) es)).
Proof.
  intros Hel%eligible_iff.
  destruct (eligible_title dl doc_id es Hel) as (t & Ht & Hne & Htitle).
  exists t. split; [done|]. split; [done|]. split; [exact Htitle|].
  cbv zeta. split.
  - destruct (step_tracking cfg now dl w doc_id es) as [?|(_ & e & He & Het)]; [by left|].
    right. exists e. by rewrite <- Htitle.
  - intros p c Hp. rewrite <- Htitle. by eapply step_files.
Qed.

(** The entry of a transcript that is now too short stays as it was. *)
Lemma stale_entry_untouched_witness :
  Sync.tracking (Sync.sync_transcripts home_cfg march_2 short_cache short_world)
    !! "short"
  = Some (synced false None "2024-01-01-Quick.md" "Quick").
Proof.
  refine (eq_trans
            (proj1 (stale_entry_untouched home_cfg march_2 short_cache short_world
                      "short" _)) _).
  - apply Forall_cons_2; [|apply Forall_cons_2; [|apply Forall_nil_2]].
    + intros _. right. vm_compute. reflexivity.
    + simpl. discriminate.
  - vm_compute. reflexivity.
Defined.

(** The transcript "Acme kickoff" is synced under that title. *)
Lemma sync_uses_own_title_witness :
  ∃ t, d_title (doc_of kickoff_docs "d2") = Some t ∧ t ≠ ""
       ∧ title_of kickoff_docs "d2" = t.
Proof.
  destruct (sync_uses_own_title home_cfg march_2 kickoff_docs routed_world "d2"
              (words 60)) as (t & Ht & Hne & Hdef & _).
  - vm_compute. reflexivity.
  - exists t. split; [exact Ht|]. split; [exact Hne|exact Hdef].
Defined.

(** ** The rename transition *)

Section Rename.

Variable cfg : Sync.config.
Variable now : nat -> datetime.
Variable dl : gmap string document.

Lemma renamed_counts doc_id es filename was_routed old_file old_path wp :
  let w := renamed cfg now dl doc_id es filename was_routed old_file old_path wp in
  Sync.new_count w = Sync.new_count wp
  ∧ Sync.routed_count w = Sync.routed_count wp
  ∧ Sync.updated_count w = S (Sync.updated_count wp)
  ∧ Sync.stdout w = Sync.stdout wp ++ ["Updated: " +:+ old_file +:+ " -> " +:+ filename].
Proof. unfold renamed. by case_match. Qed.

Lemma rerouted_counts doc_id es filename old_file wp :
  let w := rerouted cfg now dl doc_id es filename old_file wp in
  Sync.new_count w = Sync.new_count wp
  ∧ Sync.routed_count w = S (Sync.routed_count wp)
  ∧ Sync.updated_count w = Sync.updated_count wp
  ∧ Sync.stdout w
    = Sync.stdout wp ++ ["Routed: " +:+ old_file +:+ " -> "
                         +:+ default "" (client_of cfg dl doc_id)
                         +:+ "/call-notes/" +:+ filename].
Proof. done. Qed.


End Rename.






(** ** Running the sync twice *)

Section TwoRuns.

Variable cfg : Sync.config.
Variable dl : gmap string document.












End TwoRuns.







(** ** The cache reader *)

Section CacheReaderFacts.

Variable json_loads : string -> option Json.value.

Lemma load_cache_ok (text inner : string) (data : Json.value)
  (cache : list (string * Json.value)) :
  json_loads text = Some data → cache_field data = Some inner →
  json_loads inner = Some (Json.JObject cache) →
  load_cache json_loads (Some text)
  = Return (default (Json.JObject []) (Json.member "state" cache)).
Proof.
  intros Ht Hc Hi. unfold load_cache. rewrite Ht.
  destruct data as [| | | | |members]; try done. simpl in Hc.
  destruct (Json.member "cache" members) as [[| | |s| |]|]; try done.
  injection Hc as ->. by rewrite Hi.
Qed.

Lemma load_cache_raises (file : option string) :
  (∃ e, load_cache json_loads file = Raise e)
  ↔ file = None
    ∨ (∃ text, file = Some text ∧ json_loads text = None)
    ∨ (∃ text data, file = Some text ∧ json_loads text = Some data
                    ∧ cache_field data = None)
    ∨ (∃ text data inner, file = Some text ∧ json_loads text = Some data
                          ∧ cache_field data = Some inner
                          ∧ json_loads inner = None)
    ∨ (∃ text data inner v, file = Some text ∧ json_loads text = Some data
                            ∧ cache_field data = Some inner
                            ∧ json_loads inner = Some v ∧ ¬ is_object v).
Proof.
  destruct file as [text|]; [|split; [by left|by exists OSError]].
  destruct (json_loads text) as [data|] eqn:Ht.
  - destruct (cache_field data) as [inner|] eqn:Hc.
    + destruct (json_loads inner) as [v|] eqn:Hi.
      * assert (is_object v ∨ ¬ is_object v) as [Hv|Hv]
          by (destruct v; simpl; tauto).
        -- destruct v as [| | | | |cache]; try done.
           rewrite (load_cache_ok text inner data cache) by done. split.
           ++ by intros [e ?].
           ++ intros [?|[(t & [= <-] & ?)|[(t & d & [= <-] & ? & ?)|
                [(t & d & i & [= <-] & ? & ? & ?)|(t & d & i & v & [= <-] & ? & ? & ? & Hno)]]]];
                simplify_eq. by destruct Hno.
        -- split.
           ++ intros _. do 4 right. by exists text, data, inner, v.
           ++ intros _. unfold load_cache. rewrite Ht.
              destruct data as [| | | | |members]; try done. simpl in Hc.
              destruct (Json.member "cache" members) as [[| | |s| |]|]; try done.
              injection Hc as ->. rewrite Hi.
              destruct v; first [by destruct Hv | by eexists].
      * split.
        -- intros _. do 3 right. left. by exists text, data, inner.
        -- intros _. unfold load_cache. rewrite Ht.
           destruct data as [| | | | |members]; try done. simpl in Hc.
           destruct (Json.member "cache" members) as [[| | |s| |]|]; try done.
           injection Hc as ->. rewrite Hi. by eexists.
    + split.
      * intros _. do 2 right. left. by exists text, data.
      * intros _. unfold load_cache. rewrite Ht.
        destruct data as [| | | | |members]; try by eexists. simpl in Hc.
        destruct (Json.member "cache" members) as [[| | |s| |]|]; try done;
          by eexists.
  - split.
    + intros _. right. left. by exists text.
    + intros _. unfold load_cache. rewrite Ht. by eexists.
Qed.

End CacheReaderFacts.

(** C6 (as amended).  [load_cache] ends in an error exactly when the file
    cannot be opened, the outer text does not decode, the decoded value is
    not an object holding a string under [cache], that string does not
    decode, or it decodes to something that is not an object.  Otherwise it
    returns what the inner object holds under [state], and the empty mapping
    when the inner object has no [state] key: an absent [state] is not an
    error. *)
Theorem load_cache_outcome (json_loads : string -> option Json.value)
  (file : option string) :
  ((∃ e, load_cache json_loads file = Raise e)
   ↔ file = None
     ∨ (∃ text, file = Some text ∧ json_loads text = None)
     ∨ (∃ text data, file = Some text ∧ json_loads text = Some data
                     ∧ cache_field data = None)
     ∨ (∃ text data inner, file = Some text ∧ json_loads text = Some data
                           ∧ cache_field data = Some inner
                           ∧ json_loads inner = None)
     ∨ (∃ text data inner v, file = Some text ∧ json_loads text = Some data
                             ∧ cache_field data = Some inner
                             ∧ json_loads inner = Some v ∧ ¬ is_object v))
  ∧ (∀ text data inner cache,
       file = Some text → json_loads text = Some data →
       cache_field data = Some inner →
       json_loads inner = Some (Json.JObject cache) →
       load_cache json_loads file
       = Return (match Json.member "state" cache with
                 | Some state => state
                 | None => Json.JObject []
                 end)).
Proof.
  split; [apply load_cache_raises|].
  intros text data inner cache -> Ht Hc Hi.
  rewrite (load_cache_ok json_loads text inner data cache) by done.
  by destruct (Json.member "state" cache).
Qed.

(** A cache file whose inner object has no [state] key is read as the empty
    state. *)
Lemma load_cache_outcome_witness :
  load_cache Json.loads (Some (cache_file "{}")) = Return (Json.JObject []).
Proof.
  apply (proj2 (load_cache_outcome Json.loads (Some (cache_file "{}")))
           (cache_file "{}")
           (Json.JObject [("cache", Json.JString "{}")]) "{}" []).
  - reflexivity.
  - vm_compute. reflexivity.
  - reflexivity.
  - vm_compute. reflexivity.
Defined.

(** C6, the claim as stated, fails in both directions.  With the file
    [{"cache": "{}"}] both decodings succeed and the expected key [state] is
    absent, yet [load_cache] returns (the empty mapping).  With the file
    [{"cache": "[]"}] both decodings succeed and no key is looked up that is
    absent, yet [load_cache] ends in an error, [cache.get] being called on a
    list. *)
Lemma load_cache_absent_state_is_no_error :
  Json.loads (cache_file "{}") = Some (Json.JObject [("cache", Json.JString "{}")])
  ∧ Json.loads "{}" = Some (Json.JObject [])
  ∧ Json.member "state" [] = None
  ∧ load_cache Json.loads (Some (cache_file "{}")) = Return (Json.JObject [])
  ∧ Json.loads (cache_file "[]") = Some (Json.JObject [("cache", Json.JString "[]")])
  ∧ Json.loads "[]" = Some (Json.JArray [])
  ∧ load_cache Json.loads (Some (cache_file "[]")) = Raise AttributeError.
Proof. vm_compute. repeat split; reflexivity. Qed.

(** * Further properties of [granola_sync.py] *)

(** ** The create and the reroute transitions *)

Section Transitions.

Variable cfg : Sync.config.
Variable now : nat -> datetime.
Variable dl : gmap string document.

Lemma created_stdout doc_id es filename wp :
  Sync.stdout (created cfg now dl doc_id es filename wp)
  = Sync.stdout wp
    ++ [if Str.truthy (client_of cfg dl doc_id)
        then "Synced -> " +:+ default "" (client_of cfg dl doc_id) +:+ "/call-notes/"
             +:+ filename
        else "Synced -> inbox/" +:+ filename].
Proof. unfold created. by case_match. Qed.



End Transitions.





(** ** Entries without a file, and what a step and a run touch *)

Section Frozen.

Variable cfg : Sync.config.
Variable now : nat -> datetime.
Variable dl : gmap string document.

(** An entry without a file name gives the loop body no path to look for. *)
Lemma fileless_probe (tr : gmap string Sync.entry) (doc_id : string) (e : Sync.entry) :
  tr !! doc_id = Some e → Str.truthy (Sync.e_file e) = false →
  probed_path cfg dl tr doc_id = None.
Proof.
  intros He Hf. unfold probed_path. rewrite He, Hf. by rewrite !andb_false_r.
Qed.

Lemma step_fileless (w : Sync.world) (doc_id : string) (es : list segment)
  (e : Sync.entry) :
  Sync.tracking w !! doc_id = Some e → Str.truthy (Sync.e_file e) = false →
  Sync.tracking (Sync.sync_one cfg now dl w (doc_id, es)) = Sync.tracking w
  ∧ Sync.files (Sync.sync_one cfg now dl w (doc_id, es)) = Sync.files w
  ∧ Sync.new_count (Sync.sync_one cfg now dl w (doc_id, es)) = Sync.new_count w
  ∧ Sync.routed_count (Sync.sync_one cfg now dl w (doc_id, es)) = Sync.routed_count w
  ∧ Sync.updated_count (Sync.sync_one cfg now dl w (doc_id, es)) = Sync.updated_count w
  ∧ Sync.stdout (Sync.sync_one cfg now dl w (doc_id, es)) = Sync.stdout w.
Proof.
  intros He Hf. destruct (eligible dl (doc_id, es)) eqn:Hel;
    [|by rewrite step_skip].
  rewrite (step_eligible _ _ _ _ _ _ Hel), He, (fileless_probe _ _ _ He Hf).
  destruct (prepared_frame cfg now dl doc_id w) as (?&?&_&?&?&?&?). done.
Qed.

Lemma loop_fileless (items : list (string * list segment)) (w : Sync.world)
  (doc_id : string) (e : Sync.entry) :
  Sync.tracking w !! doc_id = Some e → Str.truthy (Sync.e_file e) = false →
  Sync.tracking (fold_left (Sync.sync_one cfg now dl) items w) !! doc_id = Some e.
Proof.
  revert w. induction items as [|[i es] items IH]; intros w He Hf; [done|].
  simpl. apply IH; [|done].
  destruct (decide (i = doc_id)) as [->|Hne].
  - destruct (step_fileless w doc_id es e He Hf) as (-> & _). done.
  - destruct (step_tracking cfg now dl w i es) as [->|(_ & e' & -> & _)]; [done|].
    by rewrite lookup_insert_ne.
Qed.

(** The loop body changes the file store at two paths at most: the path it
    writes, and the old path it looked for. *)
Lemma step_files_frame (w : Sync.world) (doc_id : string) (es : list segment)
  (p : string) :
  Sync.files (Sync.sync_one cfg now dl w (doc_id, es)) !! p ≠ Sync.files w !! p →
  eligible dl (doc_id, es) = true
  ∧ (p = filepath_of cfg now dl doc_id w
     ∨ probed_path cfg dl (Sync.tracking w) doc_id = Some p).
Proof.
  destruct (eligible dl (doc_id, es)) eqn:Hel; [|by rewrite step_skip].
  intros Hp. split; [done|]. revert Hp.
  rewrite (step_eligible _ _ _ _ _ _ Hel).
  destruct (prepared_frame cfg now dl doc_id w) as (_ & Hf & _).
  unfold filepath_of.
  destruct (Sync.tracking w !! doc_id) as [tracked|] eqn:Htr.
  - destruct (probed_path cfg dl (Sync.tracking w) doc_id) as [old|] eqn:Hprobe;
      [|by rewrite Hf].
    destruct (Sync.path_exists w old); [|by rewrite Hf].
    destruct (decide (p = old)) as [->|Hold]; [by right|].
    destruct (decide (p = path_join (dest_dir_of cfg dl doc_id)
                            (filename_of now dl doc_id w))) as [->|Hnew];
      [by left|].
    intros Hp. exfalso. apply Hp. clear Hp.
    destruct (negb (Sync.e_routed tracked) && Str.truthy (client_of cfg dl doc_id))
      eqn:Hre.
    + assert (old = path_join (Sync.INBOX_DIR cfg) (default "" (Sync.e_file tracked)))
        as Hinbox.
      { unfold probed_path in Hprobe. rewrite Htr, Hre in Hprobe.
        destruct (Str.truthy (Sync.e_file tracked)); simpl in Hprobe; congruence. }
      rewrite rerouted_files, Hf, <- Hinbox.
      by rewrite lookup_delete_ne, lookup_insert_ne.
    + rewrite renamed_files, Hf. case_bool_decide; unfold id;
        by rewrite ?lookup_delete_ne, lookup_insert_ne.
  - rewrite created_files, Hf.
    destruct (decide (p = path_join (dest_dir_of cfg dl doc_id)
                            (filename_of now dl doc_id w))) as [->|Hnew];
      [by left|].
    by rewrite lookup_insert_ne.
Qed.

End Frozen.

(** X3.  An entry without a file name is frozen: whatever the cache holds for
    its id, the loop body for that id changes neither ledger, files, counters
    nor output, and after the whole run the entry is as it was.  So it is
    for the stubs made of a legacy ledger: their transcripts are never
    written, however complete they are. *)
Theorem fileless_entry_frozen (cfg : Sync.config) (now : nat -> datetime)
  (state : cache_state) (w0 : Sync.world) (doc_id : string) (e : Sync.entry) :
  Sync.tracking w0 !! doc_id = Some e →
  Str.truthy (Sync.e_file e) = false →
  Sync.tracking (Sync.sync_transcripts cfg now state w0) !! doc_id = Some e
  ∧ (∀ w es, Sync.tracking w !! doc_id = Some e →
       let w' := Sync.sync_one cfg now (doc_lookup_of (documents state)) w (doc_id, es) in
       Sync.tracking w' = Sync.tracking w ∧ Sync.files w' = Sync.files w
       ∧ Sync.new_count w' = Sync.new_count w
       ∧ Sync.routed_count w' = Sync.routed_count w
       ∧ Sync.updated_count w' = Sync.updated_count w
       ∧ Sync.stdout w' = Sync.stdout w).
Proof.
  intros He Hf. split.
  - unfold Sync.sync_transcripts.
    match goal with
    | |- context [Sync.print_summary ?l] =>
        destruct (print_summary_frame l) as (-> & _)
    end.
    by apply loop_fileless.
  - intros w es Hw.
    exact (step_fileless cfg now (doc_lookup_of (documents state)) w doc_id es e Hw Hf).
Qed.

(** A complete transcript listed in a legacy ledger stays a stub, and nothing
    is written for it. *)
Lemma fileless_entry_frozen_witness :
  Sync.tracking (Sync.sync_transcripts home_cfg march_2 kickoff_cache legacy_world)
    !! "d2"
  = Some Sync.legacy_stub.
Proof.
  apply (proj1 (fileless_entry_frozen home_cfg march_2 kickoff_cache legacy_world "d2"
                  Sync.legacy_stub eq_refl eq_refl)).
Defined.

(** X4.  A legacy ledger is loaded as the mapping that gives each listed id
    the stub (not routed, no file, no title) and nothing to any other id; no
    ledger file is the empty mapping, and a saved mapping is loaded as it
    is. *)
Theorem load_tracking_legacy (ids : list string) (doc_id : string) :
  Sync.load_tracking (Sync.LegacyIds ids) !! doc_id
  = (if decide (doc_id ∈ ids) then Some Sync.legacy_stub else None)
  ∧ dom (Sync.load_tracking (Sync.LegacyIds ids)) = list_to_set ids
  ∧ Sync.load_tracking Sync.NoTrackingFile !! doc_id = None.
Proof.
  assert (Hgen : ∀ (m : gmap string Sync.entry) i,
             fold_left (fun m id_ => <[id_ := Sync.legacy_stub]> m) ids m !! i
             = if decide (i ∈ ids) then Some Sync.legacy_stub else m !! i).
  { induction ids as [|x l IH]; intros m i; cbn [fold_left].
    - destruct (decide (i ∈ [])) as [H|_]; [by apply elem_of_nil in H|done].
    - rewrite IH. destruct (decide (i ∈ l)) as [Hl|Hl].
      + destruct (decide (i ∈ x :: l)) as [_|H]; [done|]. destruct H. by right.
      + destruct (decide (i = x)) as [->|Hx].
        * destruct (decide (x ∈ x :: l)) as [_|H]; [|destruct H; by left].
          by rewrite lookup_insert_eq.
        * rewrite lookup_insert_ne by done.
          destruct (decide (i ∈ x :: l)) as [[?|?]%elem_of_cons|_]; done. }
  split; [|split]; [| |done].
  - cbn [Sync.load_tracking]. by rewrite Hgen, lookup_empty.
  - apply set_eq. intros i. rewrite elem_of_dom, elem_of_list_to_set.
    cbn [Sync.load_tracking]. rewrite Hgen, lookup_empty.
    destruct (decide (i ∈ ids)); split; try done; try by intros [? ?].
    all: intros _; by eexists.
Qed.

(** X5.  The loop body changes the file store at two paths at most: the path
    it writes the transcript to, and the path of the old file it looked
    for; every other file is as it was, and a skipped transcript changes no
    file at all. *)
Theorem step_touches_two_paths (cfg : Sync.config) (now : nat -> datetime)
  (dl : gmap string document) (w : Sync.world) (doc_id : string)
  (es : list segment) (p : string) :
  p ≠ filepath_of cfg now dl doc_id w →
  probed_path cfg dl (Sync.tracking w) doc_id ≠ Some p →
  Sync.files (Sync.sync_one cfg now dl w (doc_id, es)) !! p = Sync.files w !! p.
Proof.
  intros Hnew Hold.
  destruct (decide (Sync.files (Sync.sync_one cfg now dl w (doc_id, es)) !! p
                    = Sync.files w !! p)) as [|Hne]; [done|].
  by destruct (step_files_frame cfg now dl w doc_id es p Hne) as (_ & [?|?]).
Qed.

(** The rename of "Acme sync" leaves another client's file alone. *)
Lemma step_touches_two_paths_witness :
  Sync.files (Sync.sync_one home_cfg march_2 kickoff_docs routed_world ("d2", words 60))
    !! inbox "2024-03-01-Weekly.md"
  = Sync.files routed_world !! inbox "2024-03-01-Weekly.md".
Proof.
  apply (step_touches_two_paths home_cfg march_2 kickoff_docs routed_world "d2"
           (words 60) (inbox "2024-03-01-Weekly.md")).
  - vm_compute. discriminate.
  - vm_compute. discriminate.
Defined.

(** ** What a run adds up to *)

Section Accounting.

Variable cfg : Sync.config.
Variable now : nat -> datetime.
Variable dl : gmap string document.

(** The sum of the three counters. *)
Local Abbreviation total w :=
  (Sync.new_count w + Sync.routed_count w + Sync.updated_count w).

(** One step: the ledger gains the id of a transcript that passes the filter;
    a counted creation is a new key of the ledger; each counted action
    prints one line. *)
Lemma step_accounting (w : Sync.world) (doc_id : string) (es : list segment) :
  let w' := Sync.sync_one cfg now dl w (doc_id, es) in
  dom (Sync.tracking w')
  = (if eligible dl (doc_id, es) then {[doc_id]} ∪ dom (Sync.tracking w)
     else dom (Sync.tracking w))
  ∧ Sync.new_count w' + size (Sync.tracking w)
    = Sync.new_count w + size (Sync.tracking w')
  ∧ total w' + length (Sync.stdout w) = total w + length (Sync.stdout w').
Proof.
  cbv zeta. destruct (eligible dl (doc_id, es)) eqn:Hel; [|by rewrite step_skip].
  rewrite (step_eligible _ _ _ _ _ _ Hel).
  destruct (prepared_frame cfg now dl doc_id w) as (Ht & _ & _ & Hn & Hr & Hu & Hs).
  set (wp := prepared cfg now dl doc_id w) in *.
  set (fn := filename_of now dl doc_id w).
  destruct (Sync.tracking w !! doc_id) as [tracked|] eqn:Htr.
  - assert (Hdom : {[doc_id]} ∪ dom (Sync.tracking w) = dom (Sync.tracking w)).
    { apply subseteq_union_1_L, singleton_subseteq_l, elem_of_dom. by eexists. }
    assert (Hnoop : dom (Sync.tracking wp) = {[doc_id]} ∪ dom (Sync.tracking w)
              ∧ Sync.new_count wp + size (Sync.tracking w)
                = Sync.new_count w + size (Sync.tracking wp)
              ∧ total wp + length (Sync.stdout w) = total w + length (Sync.stdout wp)).
    { rewrite Ht, Hn, Hr, Hu, Hs, Hdom. done. }
    destruct (probed_path cfg dl (Sync.tracking w) doc_id) as [old|]; [|done].
    destruct (Sync.path_exists w old); [|done].
    case_match.
    + destruct (rerouted_counts cfg now dl doc_id es fn
                  (default "" (Sync.e_file tracked)) wp) as (Hn' & Hr' & Hu' & Hs').
      rewrite rerouted_tracking, Hn', Hr', Hu', Hs', Ht, Hn, Hr, Hu, Hs.
      rewrite dom_insert_L, map_size_insert_Some by by eexists.
      rewrite length_app. simpl. repeat split; lia.
    + destruct (renamed_counts cfg now dl doc_id es fn (Sync.e_routed tracked)
                  (default "" (Sync.e_file tracked)) old wp) as (Hn' & Hr' & Hu' & Hs').
      rewrite renamed_tracking, Hn', Hr', Hu', Hs', Ht, Hn, Hr, Hu, Hs.
      rewrite dom_insert_L, map_size_insert_Some by by eexists.
      rewrite length_app. simpl. repeat split; lia.
  - destruct (created_counts cfg now dl doc_id es fn wp) as (Hn' & Hr' & Hu').
    rewrite created_tracking, created_stdout, Hn', Hr', Hu', Ht, Hn, Hr, Hu, Hs.
    rewrite dom_insert_L, map_size_insert_None by done.
    rewrite length_app. simpl. repeat split; lia.
Qed.

Lemma loop_accounting (items : list (string * list segment)) (w : Sync.world) :
  let w' := fold_left (Sync.sync_one cfg now dl) items w in
  dom (Sync.tracking w') = eligible_ids dl items ∪ dom (Sync.tracking w)
  ∧ Sync.new_count w' + size (Sync.tracking w)
    = Sync.new_count w + size (Sync.tracking w')
  ∧ total w' + length (Sync.stdout w) = total w + length (Sync.stdout w').
Proof.
  revert w. induction items as [|[i es] items IH]; intros w; cbv zeta.
  - unfold eligible_ids. simpl. split; [|done]. by rewrite union_empty_l_L.
  - destruct (IH (Sync.sync_one cfg now dl w (i, es))) as (Hd & Hn & Hl).
    destruct (step_accounting w i es) as (Hd1 & Hn1 & Hl1).
    cbn [fold_left]. rewrite Hd, Hd1. split; [|split; lia].
    unfold eligible_ids. cbn [List.filter].
    destruct (eligible dl (i, es)); [|done].
    cbn [List.map fst]. rewrite list_to_set_cons.
    rewrite (assoc_L (∪)). f_equal. apply (comm_L (∪)).
Qed.

End Accounting.

Lemma print_summary_one_line (w : Sync.world) :
  length (Sync.stdout (Sync.print_summary w)) = S (length (Sync.stdout w)).
Proof.
  unfold Sync.print_summary. case_match; simpl; rewrite length_app; simpl; lia.
Qed.

(** X6.  After a run the ledger has an entry for exactly the ids it had
    before and the ids of the transcripts of the cache that pass the
    completion filter. *)
Theorem run_ledger_domain (cfg : Sync.config) (now : nat -> datetime)
  (state : cache_state) (w0 : Sync.world) :
  dom (Sync.tracking (Sync.sync_transcripts cfg now state w0))
  = eligible_ids (doc_lookup_of (documents state)) (transcripts state)
    ∪ dom (Sync.tracking w0).
Proof.
  unfold Sync.sync_transcripts.
  match goal with
  | |- context [Sync.print_summary ?l] => destruct (print_summary_frame l) as (-> & _)
  end.
  match goal with
  | |- context [fold_left ?f ?items ?w] =>
      destruct (loop_accounting cfg now (doc_lookup_of (documents state)) items w)
        as (-> & _)
  end.
  done.
Qed.

(** X7.  The number of transcripts a run reports as new is the number of
    entries the ledger has gained, and the run prints one line for each
    transcript it counts as new, routed or updated, and one summary line. *)
Theorem run_counts (cfg : Sync.config) (now : nat -> datetime)
  (state : cache_state) (w0 : Sync.world) :
  let r := Sync.sync_transcripts cfg now state w0 in
  size (Sync.tracking r) = size (Sync.tracking w0) + Sync.new_count r
  ∧ length (Sync.stdout r)
    = Sync.new_count r + Sync.routed_count r + Sync.updated_count r + 1.
Proof.
  cbv zeta. unfold Sync.sync_transcripts.
  set (s := Sync.start _ _ _ _).
  assert (Hs : Sync.tracking s = Sync.tracking w0 ∧ Sync.new_count s = 0
               ∧ Sync.routed_count s = 0 ∧ Sync.updated_count s = 0
               ∧ Sync.stdout s = []) by done.
  destruct Hs as (Hst & Hsn & Hsr & Hsu & Hso).
  destruct (loop_accounting cfg now (doc_lookup_of (documents state))
              (transcripts state) s) as (_ & Hn & Hl).
  set (l := fold_left _ _ s) in *.
  destruct (print_summary_frame l) as (-> & _ & _ & -> & -> & ->).
  rewrite (print_summary_one_line l).
  rewrite Hst, Hsn in Hn. rewrite Hsn, Hsr, Hsu, Hso in Hl. simpl in Hl.
  split; lia.
Qed.

(** ** Date prefixes and file names *)

Lemma length_take_exact (n : nat) (s : string) :
  n ≤ String.length s → String.length (Str.take n s) = n.
Proof.
  revert s. induction n as [|n IH]; intros [|c s]; simpl; try lia.
  intros H. rewrite IH; lia.
Qed.

Lemma length_append (a b : string) :
  String.length (a +:+ b) = String.length a + String.length b.
Proof. induction a as [|c a IH]; [done|]. rewrite append_cons. simpl. by rewrite IH. Qed.

Lemma nonempty_length (s : string) : Str.nonempty s = true ↔ 0 < String.length s.
Proof. destruct s; simpl; split; try done; lia. Qed.

Lemma get_date_prefix_dated (now : nat -> datetime) (doc : document) (w : Sync.world) :
  10 ≤ String.length (start_of doc) →
  Sync.get_date_prefix now doc w = (Str.take 10 (start_of doc), w).
Proof.
  intros Hlen. unfold Sync.get_date_prefix. fold (start_of doc).
  assert (Str.nonempty (start_of doc) = true) as -> by (apply nonempty_length; lia).
  by apply Nat.leb_le in Hlen as ->.
Qed.

Lemma get_date_prefix_undated (now : nat -> datetime) (doc : document) (w : Sync.world) :
  String.length (start_of doc) < 10 →
  Sync.get_date_prefix now doc w
  = (strftime_ymd (now (Sync.tick w)), Sync.set_tick w (S (Sync.tick w))).
Proof.
  intros Hlen. unfold Sync.get_date_prefix. fold (start_of doc).
  apply Nat.leb_gt in Hlen as ->. by rewrite andb_false_r.
Qed.

(** X8.  The file name of a transcript whose start time (the first non-empty
    of [start_time], [startTime], [created_at]) has at least 10 characters is
    built from the first 10 of them and does not depend on the clock, which
    is not read; with a shorter or no start time the file name carries the
    date of the run, and the clock is read once. *)
Theorem filename_date (now : nat -> datetime) (dl : gmap string document)
  (doc_id : string) (w : Sync.world) :
  (10 ≤ String.length (start_of (doc_of dl doc_id)) →
   filename_of now dl doc_id w
   = Sync.make_filename (Str.take 10 (start_of (doc_of dl doc_id))) (title_of dl doc_id)
   ∧ String.length (date_prefix_of now dl doc_id w) = 10
   ∧ (Sync.get_date_prefix now (doc_of dl doc_id) w).2 = w
   ∧ ∀ now' w', filename_of now' dl doc_id w' = filename_of now dl doc_id w)
  ∧ (String.length (start_of (doc_of dl doc_id)) < 10 →
     filename_of now dl doc_id w
     = Sync.make_filename (strftime_ymd (now (Sync.tick w))) (title_of dl doc_id)
     ∧ Sync.tick (Sync.get_date_prefix now (doc_of dl doc_id) w).2 = S (Sync.tick w)).
Proof.
  unfold filename_of, date_prefix_of. split; intros Hlen.
  - rewrite get_date_prefix_dated by done. cbn [fst snd].
    split; [done|]. split; [by apply length_take_exact|]. split; [done|].
    intros now' w'. by rewrite get_date_prefix_dated.
  - by rewrite get_date_prefix_undated.
Qed.

(** A dated and an undated "Acme kickoff". *)
Lemma filename_date_witness :
  filename_of march_2 kickoff_docs "d2" empty_world = "2024-03-01-Acme-kickoff.md"
  ∧ filename_of march_2 undated_docs "d3" empty_world = "2024-03-02-Acme-kickoff.md".
Proof.
  split.
  - destruct (proj1 (filename_date march_2 kickoff_docs "d2" empty_world)) as (-> & _).
    + vm_compute. lia.
    + vm_compute. reflexivity.
  - destruct (proj2 (filename_date march_2 undated_docs "d3" empty_world)) as (-> & _).
    + vm_compute. lia.
    + vm_compute. reflexivity.
Defined.

Lemma forallb_map (p : ascii -> bool) (f : ascii -> ascii) (s : string) :
  Str.forallb p (Str.map f s) = Str.forallb (fun c => p (f c)) s.
Proof. induction s as [|c s IH]; simpl; [done|]. by rewrite IH. Qed.

Lemma forallb_impl (p q : ascii -> bool) (s : string) :
  (∀ c, p c = true → q c = true) →
  Str.forallb p s = true → Str.forallb q s = true.
Proof.
  intros Hpq. induction s as [|c s IH]; simpl; [done|].
  intros [Hc Hs]%andb_true_iff. by rewrite (Hpq c Hc), IH.
Qed.

Lemma forallb_filter_self (p : ascii -> bool) (s : string) :
  Str.forallb p (Str.filter p s) = true.
Proof.
  induction s as [|c s IH]; simpl; [done|].
  destruct (p c) eqn:Hc; simpl; by rewrite ?Hc.
Qed.

(** X9.  Whatever the title, the sanitized title of [make_filename] has at
    most 60 characters, no two hyphens in a row and no space character, and
    holds only characters the filter keeps (word characters, hyphens, and
    whitespace other than the space); so the file name is at most 64
    characters longer than the date prefix.  When the only whitespace of the
    title is the space character, the sanitized title holds word characters
    and hyphens only. *)
Theorem make_filename_shape (date_str title : string) :
  String.length (Sync.safe_title title) ≤ 60
  ∧ Str.contains "--" (Sync.safe_title title) = false
  ∧ Str.forallb filename_char (Sync.safe_title title) = true
  ∧ String.length (Sync.make_filename date_str title) ≤ String.length date_str + 64
  ∧ (spaces_only title = true →
     Str.forallb word_or_hyphen (Sync.safe_title title) = true).
Proof.
  assert (Hlen : String.length (Sync.safe_title title) ≤ 60).
  { unfold Sync.safe_title. etrans; [apply length_collapse|].
    unfold Str.replace_char. rewrite length_map. unfold Str.strip.
    etrans; [apply length_rstrip|]. etrans; [apply length_lstrip|]. apply length_take. }
  split; [done|]. split; [apply collapse_no_double_hyphen|]. split; [|split].
  - unfold Sync.safe_title. apply forallb_collapse.
    unfold Str.replace_char. rewrite forallb_map. unfold Str.strip.
    eapply forallb_impl;
      [|apply forallb_rstrip, forallb_lstrip, forallb_take, forallb_filter_self].
    intros c Hc. unfold filename_char. destruct (Ascii.eqb c " ") eqn:Hsp; [done|].
    by rewrite Hc, Hsp.
  - unfold Sync.make_filename. rewrite !length_append. simpl. lia.
  - intros Hsp. by apply safe_title_clean.
Qed.

(** The title of the specification's example. *)
Lemma make_filename_shape_witness :
  Str.forallb word_or_hyphen (Sync.safe_title "Q3 Planning: Acme & Co!!") = true.
Proof.
  apply (make_filename_shape "2024-03-01" "Q3 Planning: Acme & Co!!").
  vm_compute. reflexivity.
Defined.

(** X19.  On a routing table whose keywords are all written in lowercase,
    [match_client] returns a folder exactly when it is that of the first
    entry, in table order, one of whose keywords occurs in the title (with
    the people title appended) when case is disregarded. *)
Theorem match_client_case_insensitive (routes : list (list string * string))
  (title : option string) (people : option people_t) (folder : string) :
  lowercase_table routes →
  Sync.match_client routes title people = Some folder
  ↔ ∃ before keywords after,
      routes = before ++ (keywords, folder) :: after
      ∧ Forall (fun r => Forall (fun kw =>
                  ci_contains kw (raw_search_text title people) = false) r.1) before
      ∧ ∃ kw, kw ∈ keywords ∧ ci_contains kw (raw_search_text title people) = true.
Proof. apply match_client_lowercase_table. Qed.

(** The shipped table, and a title in capitals. *)
Lemma match_client_case_insensitive_witness :
  ∃ before keywords after,
    Sync.shipped_routes = before ++ (keywords, "Internal") :: after
    ∧ Forall (fun r => Forall (fun kw =>
                ci_contains kw (raw_search_text (Some "Weekly STANDUP") None) = false)
                r.1) before
    ∧ ∃ kw, kw ∈ keywords
            ∧ ci_contains kw (raw_search_text (Some "Weekly STANDUP") None) = true.
Proof.
  apply (proj1 (match_client_case_insensitive Sync.shipped_routes
                  (Some "Weekly STANDUP") None "Internal"
                  ltac:(repeat constructor))).
  vm_compute. reflexivity.
Defined.

(** ** The renderers *)

(** The loops skip blank segments. *)
Lemma sync_format_loop_filter (es : list segment) (lines : list string)
  (cs : option string) :
  Sync.format_loop (List.filter nonblank es) lines cs = Sync.format_loop es lines cs.
Proof.
  revert lines cs. induction es as [|e es IH]; intros lines cs; [done|].
  cbn [List.filter]. unfold nonblank at 1, text_of.
  destruct (Str.nonempty (Str.strip (default "" (s_text e)))) eqn:He.
  - cbn [Sync.format_loop]. rewrite He. cbn [negb]. case_match; apply IH.
  - cbn [Sync.format_loop]. rewrite He. cbn [negb]. apply IH.
Qed.

Lemma tool_format_loop_filter (es : list segment) (lines : list string)
  (cs : option string) :
  Transcripts.format_loop (List.filter nonblank es) lines cs
  = Transcripts.format_loop es lines cs.
Proof.
  revert lines cs. induction es as [|e es IH]; intros lines cs; [done|].
  cbn [List.filter]. unfold nonblank at 1, text_of.
  destruct (Str.nonempty (Str.strip (default "" (s_text e)))) eqn:He.
  - cbn [Transcripts.format_loop]. rewrite He. cbn [negb]. case_match; apply IH.
  - cbn [Transcripts.format_loop]. rewrite He. cbn [negb]. apply IH.
Qed.

(** The sync loop, once its current source is [src], adds no label for
    segments of that source. *)
Lemma sync_format_loop_same_source (src : string) (es : list segment)
  (lines : list string) :
  Forall (fun e => nonblank e = true → source_of e = src) es →
  Sync.format_loop es lines (Some src)
  = lines ++ List.map text_of (List.filter nonblank es).
Proof.
  revert lines. induction es as [|e es IH]; intros lines Hall.
  - by rewrite app_nil_r.
  - apply Forall_cons in Hall as [He Hall]. cbn [Sync.format_loop List.filter].
    change (Str.nonempty (Str.strip (default "" (s_text e)))) with (nonblank e).
    change (Str.strip (default "" (s_text e))) with (text_of e).
    change (default "unknown" (s_source e)) with (source_of e).
    destruct (nonblank e) eqn:Hne; cbn [negb]; [|by apply IH].
    rewrite (He eq_refl).
    rewrite bool_decide_eq_false_2 by (by intros ?).
    rewrite IH by done. cbn [List.map]. rewrite <- app_assoc. done.
Qed.

(** X10.  Segments whose text is empty once trimmed are invisible to both
    renderers: removing them from the list changes neither output. *)
Theorem blank_segments_invisible (entries : list segment) :
  Sync.format_transcript (List.filter nonblank entries) = Sync.format_transcript entries
  ∧ Transcripts.format_transcript (List.filter nonblank entries)
    = Transcripts.format_transcript entries.
Proof.
  unfold Sync.format_transcript, Transcripts.format_transcript.
  by rewrite sync_format_loop_filter, tool_format_loop_filter.
Qed.

(** X11.  When all rendered segments come from one source, the sync renderer
    emits its label once, before the first text, and then the trimmed texts
    in order, all joined by single spaces: consecutive segments of one
    speaker share a label. *)
Theorem single_speaker_one_label (src : string) (entries : list segment) :
  Forall (fun e => nonblank e = true → source_of e = src) entries →
  List.filter nonblank entries ≠ [] →
  Sync.format_transcript entries
  = Str.join " " (sync_label src :: List.map text_of (List.filter nonblank entries)).
Proof.
  intros Hall Hne. unfold Sync.format_transcript.
  rewrite <- sync_format_loop_filter.
  assert (Hall' : Forall (fun e => nonblank e = true → source_of e = src)
                    (List.filter nonblank entries)).
  { apply Forall_forall. intros e [He _]%list_elem_of_In%filter_In.
    rewrite Forall_forall in Hall. apply Hall. by apply list_elem_of_In. }
  assert (Hnb : Forall (fun e => nonblank e = true) (List.filter nonblank entries)).
  { apply Forall_forall. by intros e [_ He]%list_elem_of_In%filter_In. }
  assert (Hidem : ∀ l, Forall (fun e => nonblank e = true) l → List.filter nonblank l = l).
  { induction 1 as [|x l Hx Hl IHl]; [done|]. cbn [List.filter]. by rewrite Hx, IHl. }
  destruct (List.filter nonblank entries) as [|e es] eqn:Hf; [done|].
  apply Forall_cons in Hall' as [He Hall'], Hnb as [Hb Hnb].
  cbn [Sync.format_loop].
  change (Str.nonempty (Str.strip (default "" (s_text e)))) with (nonblank e).
  change (Str.strip (default "" (s_text e))) with (text_of e).
  change (default "unknown" (s_source e)) with (source_of e).
  rewrite Hb, (He Hb). cbn [negb].
  rewrite bool_decide_eq_true_2 by done.
  rewrite sync_format_loop_same_source by done.
  fold (sync_label src). cbn [app List.map]. by rewrite (Hidem es Hnb).
Qed.

(** A monologue with a blank segment of another source in between. *)
Lemma single_speaker_one_label_witness :
  Sync.format_transcript monologue = nl +:+ "**[You]**  hello again".
Proof.
  refine (eq_trans (single_speaker_one_label "microphone" monologue _ _) _).
  - repeat (apply Forall_cons_2 || apply Forall_nil_2); vm_compute; congruence.
  - vm_compute. discriminate.
  - vm_compute. reflexivity.
Defined.

(** * Further properties of [granola_transcripts.py] *)

(** ** The order of the listing *)

Lemma string_leb_refl (s : string) : String.leb s s = true.
Proof. by destruct (String.leb_total s s). Qed.

Lemma string_leb_empty (s : string) : String.leb s "" = true → s = "".
Proof. by destruct s. Qed.

Lemma later_first_trans : Transitive later_first.
Proof.
  intros x y z Hxy Hyz. unfold later_first in *.
  apply Is_true_true. apply Is_true_true in Hxy, Hyz.
  exact (transitivity (R := String.le) Hyz Hxy).
Qed.

(** Inserting keeps the order of the elements with a given key, the
    inserted element first. *)
Lemma insert_desc_with_key (k : string) (x : Transcripts.listing)
  (l : list Transcripts.listing) :
  with_key k (Transcripts.insert_desc x l) = with_key k (x :: l).
Proof.
  induction l as [|y l IH]; [done|]. cbn [Transcripts.insert_desc].
  destruct (String.leb (Transcripts.sort_key y) (Transcripts.sort_key x)) eqn:Hle;
    [done|].
  assert (Hne : Transcripts.sort_key y ≠ Transcripts.sort_key x).
  { intros Heq. rewrite Heq, string_leb_refl in Hle. done. }
  unfold with_key in *. cbn [List.filter] in *. rewrite IH.
  destruct (String.eqb_spec (Transcripts.sort_key x) k) as [Hx|Hx]; [|done].
  destruct (String.eqb_spec (Transcripts.sort_key y) k) as [Hy|Hy]; [|done].
  congruence.
Qed.

Lemma sorted_desc_with_key (k : string) (l : list Transcripts.listing) :
  with_key k (Transcripts.sorted_desc l) = with_key k l.
Proof.
  induction l as [|x l IH]; [done|]. cbn [Transcripts.sorted_desc].
  rewrite insert_desc_with_key. unfold with_key in *. cbn [List.filter].
  by rewrite IH.
Qed.

(** X12.  The listing is sorted stably: transcripts with the same start time
    (in particular all those without one) keep the order they have in the
    cache; and a transcript without a start time is never listed before one
    that has a start time. *)
Theorem listing_order (state : cache_state) :
  let ts := Transcripts.get_transcripts_with_docs state in
  (∀ k, with_key k ts
        = with_key k (Transcripts.collect (doc_lookup_of (documents state))
                        (transcripts state)))
  ∧ (∀ i j x y, ts !! i = Some x → ts !! j = Some y → i < j →
                Transcripts.sort_key x = "" → Transcripts.sort_key y = "").
Proof.
  cbv zeta. split.
  - intros k. apply sorted_desc_with_key.
  - intros i j x y Hi Hj Hij Hx.
    pose proof (sorted_desc_sorted
                  (Transcripts.collect (doc_lookup_of (documents state))
                     (transcripts state))) as Hs.
    apply Sorted_StronglySorted in Hs; [|apply later_first_trans].
    fold (Transcripts.get_transcripts_with_docs state) in Hs.
    revert i j Hi Hj Hij.
    induction Hs as [|z l Hl IH Hz]; intros i j Hi Hj Hij; [done|].
    destruct i as [|i], j as [|j]; try lia; simpl in Hi, Hj.
    + injection Hi as ->. rewrite Forall_forall in Hz.
      assert (Hxy : later_first x y) by (apply Hz; by eapply list_elem_of_lookup_2).
      unfold later_first in Hxy. rewrite Hx in Hxy. by apply string_leb_empty.
    + apply (IH i j Hi Hj). lia.
Qed.

(** The two transcripts started at the same time are listed in the order of
    the cache, the undated one last. *)
Example listing_order_tied :
  Transcripts.t_id <$> Transcripts.get_transcripts_with_docs tied_cache
  = ["a"; "b"; "n"].
Proof. vm_compute. reflexivity. Qed.

(** Two undated transcripts: the second of the listing is undated as the
    first is. *)
Lemma listing_order_witness :
  Transcripts.sort_key <$> (Transcripts.get_transcripts_with_docs undated_cache !! 1)
  = Some "".
Proof.
  destruct (Transcripts.get_transcripts_with_docs undated_cache !! 0) as [x|] eqn:Hx;
    [|vm_compute in Hx; discriminate].
  destruct (Transcripts.get_transcripts_with_docs undated_cache !! 1) as [y|] eqn:Hy;
    [|vm_compute in Hy; discriminate].
  simpl. f_equal.
  apply (proj2 (listing_order undated_cache) 0 1 x y Hx Hy); [lia|].
  vm_compute in Hx. injection Hx as <-. reflexivity.
Defined.

(** ** Looking up with an empty query *)

Lemma prefix_empty (s : string) : String.prefix "" s = true.
Proof. by destruct s. Qed.

Lemma contains_empty (s : string) : Str.contains "" s = true.
Proof. destruct s; simpl; by rewrite ?prefix_empty. Qed.

(** X13.  An empty query matches every title, so [show_transcript] with an
    empty query prints the first transcript of the listing, the latest one;
    only for an empty listing does it print that nothing was found. *)
Theorem show_transcript_empty_query (state : cache_state) :
  Transcripts.show_transcript state ""
  = match Transcripts.get_transcripts_with_docs state with
    | t :: _ => Transcripts.show_lines t
    | [] => ["Transcript not found: "]
    end.
Proof.
  unfold Transcripts.show_transcript.
  destruct (Transcripts.get_transcripts_with_docs state) as [|t ts]; [done|].
  cbn [Transcripts.show_loop]. unfold Transcripts.matches.
  change (Str.lower "") with "". by rewrite contains_empty, orb_true_r.
Qed.

(** ** Searching *)



Lemma prefix_contains (sub s : string) :
  String.prefix sub s = true → Str.contains sub s = true.
Proof. destruct s; simpl; intros ->; done. Qed.











(** ** Exporting and listing *)

Section ExportLoop.

Variable export_dir : string.

Lemma export_loop_frame (ts : list Transcripts.listing) (d : Transcripts.disk)
  (p : string) :
  Forall (fun t => export_path export_dir t ≠ p) ts →
  Transcripts.files (fold_left (Transcripts.export_one export_dir) ts d) !! p
  = Transcripts.files d !! p.
Proof.
  revert d. induction ts as [|t ts IH]; intros d Hall; [done|].
  apply Forall_cons in Hall as [Ht Hall]. cbn [fold_left]. rewrite IH by done.
  unfold Transcripts.export_one. cbn [Transcripts.files].
  by rewrite lookup_insert_ne.
Qed.

Lemma export_loop_last (before after : list Transcripts.listing)
  (t : Transcripts.listing) (d : Transcripts.disk) :
  Forall (fun u => export_path export_dir u ≠ export_path export_dir t) after →
  Transcripts.files
    (fold_left (Transcripts.export_one export_dir) (before ++ t :: after) d)
    !! export_path export_dir t
  = Some (Transcripts.export_content t).
Proof.
  intros Hafter. rewrite fold_left_app. cbn [fold_left].
  rewrite export_loop_frame by done.
  unfold Transcripts.export_one at 1. cbn [Transcripts.files].
  apply lookup_insert_eq.
Qed.

Lemma export_loop_rest (ts : list Transcripts.listing) (d : Transcripts.disk) :
  Transcripts.dirs (fold_left (Transcripts.export_one export_dir) ts d)
  = Transcripts.dirs d
  ∧ Transcripts.stdout (fold_left (Transcripts.export_one export_dir) ts d)
    = Transcripts.stdout d
      ++ List.map (fun t => "Exported: " +:+ Transcripts.export_filename t) ts.
Proof.
  revert d. induction ts as [|t ts IH]; intros d.
  - by rewrite app_nil_r.
  - cbn [fold_left]. destruct (IH (Transcripts.export_one export_dir d t)) as [-> ->].
    unfold Transcripts.export_one. cbn [Transcripts.dirs Transcripts.stdout List.map].
    by rewrite <- app_assoc.
Qed.

End ExportLoop.

(** X15.  [export_all] writes every transcript of the listing to the export
    directory under its sanitized title; when several transcripts get one
    path, the file holds the last of them in the order of the listing (the
    earliest started); files at other paths are untouched; one line is
    printed per transcript, and one more at the end. *)
Theorem export_all_files (export_dir : string) (state : cache_state)
  (d : Transcripts.disk) :
  let ts := Transcripts.get_transcripts_with_docs state in
  let d' := Transcripts.export_all export_dir state d in
  (∀ before t after,
     ts = before ++ t :: after →
     Forall (fun u => export_path export_dir u ≠ export_path export_dir t) after →
     Transcripts.files d' !! export_path export_dir t
     = Some (Transcripts.export_content t))
  ∧ (∀ t, t ∈ ts → is_Some (Transcripts.files d' !! export_path export_dir t))
  ∧ (∀ p, Forall (fun t => export_path export_dir t ≠ p) ts →
          Transcripts.files d' !! p = Transcripts.files d !! p)
  ∧ length (Transcripts.stdout d') = length (Transcripts.stdout d) + length ts + 1
  ∧ export_dir ∈ Transcripts.dirs d'.
Proof.
  cbv zeta. unfold Transcripts.export_all. cbn [Transcripts.files Transcripts.dirs
    Transcripts.stdout].
  set (ts := Transcripts.get_transcripts_with_docs state).
  set (d0 := {| Transcripts.files := Transcripts.files d;
                Transcripts.dirs := {[export_dir]} ∪ Transcripts.dirs d;
                Transcripts.stdout := Transcripts.stdout d |}).
  destruct (export_loop_rest export_dir ts d0) as [Hd Hs].
  split; [|split; [|split; [|split]]].
  - intros before t after Hts Hafter. rewrite Hts. by apply export_loop_last.
  - intros t Ht.
    assert (Hgen : ∀ l (x : Transcripts.disk), t ∈ l →
              is_Some (Transcripts.files
                         (fold_left (Transcripts.export_one export_dir) l x)
                         !! export_path export_dir t)).
    { clear. intros l. induction l as [|u l IH] using rev_ind; intros x Hin;
        [by apply elem_of_nil in Hin|].
      rewrite fold_left_app. cbn [fold_left].
      unfold Transcripts.export_one at 1. cbn [Transcripts.files].
      destruct (decide (export_path export_dir u = export_path export_dir t))
        as [Heq|Hne].
      - unfold export_path in Heq. rewrite Heq. rewrite lookup_insert_eq. by eexists.
      - rewrite lookup_insert_ne by done. apply IH.
        apply elem_of_app in Hin as [?|Hin]; [done|].
        apply list_elem_of_singleton in Hin. by subst. }
    by apply Hgen.
  - intros p Hp. by rewrite export_loop_frame.
  - rewrite length_app, Hs, length_app, List.length_map. simpl. lia.
  - rewrite Hd. apply elem_of_union_l. by apply elem_of_singleton.
Qed.

(** Of two transcripts titled "Weekly sync" the export keeps the earlier
    started one, which comes last in the listing. *)
Lemma export_all_files_witness :
  Transcripts.files (Transcripts.export_all "/home/u/exports" same_title_cache empty_disk)
    !! "/home/u/exports/Weekly-sync.md"
  = Some (Transcripts.export_content weekly_w).
Proof.
  apply (proj1 (export_all_files "/home/u/exports" same_title_cache empty_disk)
           [weekly_x] weekly_w []).
  - vm_compute. reflexivity.
  - apply Forall_nil_2.
Defined.

(** X16.  [list_transcripts] prints three header lines and four lines for
    every transcript of the listing, and the preview line of a transcript
    has at most 95 characters, however long its segments are. *)
Theorem list_transcripts_lines (state : cache_state) :
  length (Transcripts.list_transcripts state)
  = 3 + 4 * length (Transcripts.get_transcripts_with_docs state)
  ∧ ∀ t line, Transcripts.list_block t !! 3 = Some line → String.length line ≤ 95.
Proof.
  split.
  - assert (Hblocks : ∀ l, length (List.concat (List.map Transcripts.list_block l))
                           = 4 * length l).
    { induction l as [|t l IH]; [done|].
      cbn [List.map List.concat]. rewrite length_app, IH. simpl. lia. }
    unfold Transcripts.list_transcripts. rewrite length_app, Hblocks. simpl. lia.
  - intros t line Hline.
    set (preview := Str.join " | "
           (List.map (fun e => Str.take 30 (default "" (s_text e)))
              (firstn 5 (Transcripts.t_entries t)))).
    assert (Hblock : Transcripts.list_block t !! 3
                     = Some ("   Preview: " +:+ Str.take 80 preview +:+ "..."))
      by reflexivity.
    assert (line = "   Preview: " +:+ Str.take 80 preview +:+ "...") as ->
      by congruence.
    rewrite !length_append. pose proof (length_take 80 preview) as H.
    change (String.length "   Preview: ") with 12.
    change (String.length "...") with 3. lia.
Qed.

(** The preview line of a listed transcript. *)
Lemma list_transcripts_lines_witness :
  from_option String.length 0 (Transcripts.list_block weekly_x !! 3) ≤ 95.
Proof.
  destruct (Transcripts.list_block weekly_x !! 3) as [line|] eqn:Hline; simpl; [|lia].
  exact (proj2 (list_transcripts_lines same_title_cache) weekly_x line Hline).
Defined.

(** * The documents of the cache, by id (both scripts) *)

Section IndexDocuments.

Local Abbreviation put :=
  (fun (m : gmap string document) d =>
     match d_id d with Some i => <[i := d]> m | None => m end).

Lemma index_fold_frame (l : list document) (m : gmap string document) (i : string) :
  Forall (fun d => d_id d ≠ Some i) l →
  fold_left put l m !! i = m !! i.
Proof.
  revert m. induction l as [|d l IH]; intros m Hall; [done|].
  apply Forall_cons in Hall as [Hd Hall]. cbn [fold_left]. rewrite IH by done.
  destruct (d_id d) as [k|]; [|done]. rewrite lookup_insert_ne; [done|congruence].
Qed.

Lemma index_fold_last (before after : list document) (d : document)
  (m : gmap string document) (i : string) :
  d_id d = Some i → Forall (fun d' => d_id d' ≠ Some i) after →
  fold_left put (before ++ d :: after) m !! i = Some d.
Proof.
  intros Hd Hafter. rewrite fold_left_app. cbn [fold_left].
  rewrite index_fold_frame by done. rewrite Hd. apply lookup_insert_eq.
Qed.

Lemma index_fold_elem (l : list document) (m : gmap string document) (i : string)
  (d : document) :
  fold_left put l m !! i = Some d →
  (d ∈ l ∧ d_id d = Some i) ∨ m !! i = Some d.
Proof.
  revert m. induction l as [|x l IH]; intros m; [by right|].
  cbn [fold_left]. intros [[Hin Hid]|Hm]%IH.
  - left. split; [by right|done].
  - destruct (d_id x) as [k|] eqn:Hk; [|by right].
    apply lookup_insert_Some in Hm as [[<- <-]|[_ Hm]]; [|by right].
    left. split; [by left|done].
Qed.

End IndexDocuments.

(** X17.  A list of documents is read by id: the document found under an id
    is the last record of the list that carries it, and an id that no record
    carries gives nothing (so the empty document is used). *)
Theorem documents_by_id (l : list document) (doc_id : string) :
  (∀ before d after,
     l = before ++ d :: after → d_id d = Some doc_id →
     Forall (fun d' => d_id d' ≠ Some doc_id) after →
     doc_lookup_of (DocsList l) !! doc_id = Some d)
  ∧ (Forall (fun d => d_id d ≠ Some doc_id) l →
     doc_lookup_of (DocsList l) !! doc_id = None
     ∧ doc_of (doc_lookup_of (DocsList l)) doc_id = empty_document)
  ∧ (∀ d, doc_lookup_of (DocsList l) !! doc_id = Some d →
          d ∈ l ∧ d_id d = Some doc_id).
Proof.
  cbn [doc_lookup_of]. unfold index_documents. split; [|split].
  - intros before d after -> Hd Hafter. by apply index_fold_last.
  - intros Hall. unfold doc_of. cbn [doc_lookup_of]. unfold index_documents.
    by rewrite index_fold_frame, lookup_empty.
  - intros d [?|Hm]%index_fold_elem; [done|]. by rewrite lookup_empty in Hm.
Qed.

(** Of two records with one id the second is found. *)
Lemma documents_by_id_witness :
  doc_lookup_of (DocsList [ meeting "a" "First" day; meeting "a" "Second" day ]) !! "a"
  = Some (meeting "a" "Second" day).
Proof.
  apply (proj1 (documents_by_id [ meeting "a" "First" day; meeting "a" "Second" day ] "a")
           [ meeting "a" "First" day ] (meeting "a" "Second" day) []).
  - reflexivity.
  - reflexivity.
  - apply Forall_nil_2.
Defined.

(** X18.  The two forms of [documents] are read alike: a mapping whose
    documents carry their key as [id], and the list of its documents in any
    order the mapping lists them, give the same lookup. *)
Theorem documents_forms_agree (m : gmap string document) :
  (∀ i d, m !! i = Some d → d_id d = Some i) →
  doc_lookup_of (DocsList ((map_to_list m).*2)) = doc_lookup_of (DocsDict m).
Proof.
  intros Hid. cbn [doc_lookup_of]. unfold index_documents. apply map_eq. intros i.
  assert (Hkey : ∀ l (k : string),
             k ∉ l.*1 → Forall (fun kd => m !! kd.1 = Some kd.2) l →
             Forall (fun d' => d_id d' ≠ Some k) (l.*2)).
  { intros l k Hk Hl. apply Forall_fmap. apply Forall_forall.
    intros [k' d'] Hin. rewrite Forall_forall in Hl. specialize (Hl _ Hin).
    simpl in *. rewrite (Hid _ _ Hl). intros [= ->]. apply Hk.
    apply list_elem_of_fmap. by exists (k, d'). }
  assert (Hall : Forall (fun kd => m !! kd.1 = Some kd.2) (map_to_list m)).
  { apply Forall_forall. intros [k d] Hin. by apply elem_of_map_to_list. }
  destruct (m !! i) as [d|] eqn:Hm.
  - apply elem_of_map_to_list in Hm as Hin.
    apply list_elem_of_split in Hin as (l1 & l2 & Hsplit).
    pose proof (NoDup_fst_map_to_list m) as Hnd.
    rewrite Hsplit in Hnd. rewrite Hsplit in Hall. rewrite Hsplit.
    rewrite fmap_app, fmap_cons in Hnd. rewrite fmap_app, fmap_cons.
    cbn [snd fst] in *.
    apply NoDup_app in Hnd as (_ & _ & Hnd). apply NoDup_cons in Hnd as [Hnotin _].
    apply Forall_app in Hall as [_ Hall]. apply Forall_cons in Hall as [_ Hall].
    apply index_fold_last; [by apply (Hid i d)|]. by apply Hkey.
  - rewrite index_fold_frame; [by rewrite lookup_empty|].
    apply Hkey; [|done]. intros Hin. apply list_elem_of_fmap in Hin as ([k d] & -> & Hin).
    apply elem_of_map_to_list in Hin. simpl in Hm. congruence.
Qed.

Lemma documents_forms_agree_witness :
  doc_lookup_of (DocsList ((map_to_list kickoff_docs).*2))
  = doc_lookup_of (DocsDict kickoff_docs).
Proof.
  apply documents_forms_agree. intros i d H. unfold kickoff_docs in H.
  apply lookup_singleton_Some in H as [<- <-]. reflexivity.
Defined.

(** * Growing input *)

Lemma word_count_app (es es' : list segment) :
  word_count es ≤ word_count (es ++ es').
Proof.
  rewrite !word_count_sum, List.map_app, list_sum_app. lia.
Qed.

(** X20.  More transcript never turns a finished meeting into an unfinished
    one: once [is_meeting_done] accepts a segment list, it accepts every
    extension of it. *)
Theorem is_meeting_done_extends (doc : document) (es es' : list segment) :
  Sync.is_meeting_done doc es = true →
  Sync.is_meeting_done doc (es ++ es') = true.
Proof.
  intros (Hend & Htitle & Hw)%is_meeting_done_true. apply is_meeting_done_true.
  split; [done|]. split; [done|]. pose proof (word_count_app es es'). lia.
Qed.

Lemma is_meeting_done_extends_witness :
  Sync.is_meeting_done (meeting "d2" "Acme kickoff" day) (words 60 ++ words 0) = true.
Proof. apply is_meeting_done_extends. vm_compute. reflexivity. Defined.

Lemma prefix_append (sub s t : string) :
  String.prefix sub s = true → String.prefix sub (s +:+ t) = true.
Proof.
  revert sub. induction s as [|c s IH]; intros [|a sub]; try done.
  - intros _. apply prefix_empty.
  - rewrite append_cons, !prefix_cons. intros [-> Hp]%andb_true_iff. by rewrite IH.
Qed.

Lemma contains_append (sub s t : string) :
  Str.contains sub s = true → Str.contains sub (s +:+ t) = true.
Proof.
  induction s as [|c s IH].
  - simpl. rewrite orb_false_r. intros Hp. apply prefix_contains.
    by apply (prefix_append sub "" t).
  - rewrite append_cons, !contains_cons. intros [Hp|Hc]%orb_true_iff.
    + rewrite <- append_cons. by rewrite (prefix_append _ _ t Hp).
    + by rewrite (IH Hc), orb_true_r.
Qed.

Lemma any_keyword_append (keywords : list string) (s t : string) :
  Sync.any_keyword keywords s = true → Sync.any_keyword keywords (s +:+ t) = true.
Proof.
  rewrite !any_keyword_true. intros (kw & Hin & Hkw). exists kw.
  split; [done|]. by apply contains_append.
Qed.

Lemma first_route_append (routes : list (list string * string)) (s t : string) :
  is_Some (Sync.first_route routes s) → is_Some (Sync.first_route routes (s +:+ t)).
Proof.
  induction routes as [|[kws f] routes IH]; simpl; [done|].
  destruct (Sync.any_keyword kws s) eqn:Hk.
  - by rewrite (any_keyword_append _ _ t Hk).
  - intros H. destruct (Sync.any_keyword kws (s +:+ t)); [by eexists|by apply IH].
Qed.

(** X21.  People information never unroutes a transcript: if the title alone
    matches a client, then the title with any [people] annotation matches a
    client too. *)
Theorem people_never_unroute (routes : list (list string * string))
  (title : option string) (people : option people_t) :
  is_Some (Sync.match_client routes title None) →
  is_Some (Sync.match_client routes title people).
Proof.
  unfold Sync.match_client, Sync.search_text_of.
  destruct people as [[[pt|]|]|]; try done.
  destruct (Str.nonempty pt); [|done]. apply first_route_append.
Qed.

Lemma people_never_unroute_witness :
  is_Some (Sync.match_client Sync.shipped_routes (Some "Retro")
             (Some (PeopleDict (Some "Jane Doe")))).
Proof.
  apply people_never_unroute. vm_compute. eexists. reflexivity.
Defined.

